(** * yee: request context, middleware chain, CSRF and access-logger middleware

    A shallow embedding of the Go sources

    - [context.go]            (the [context] struct, [Next], [Redirect], [Scheme], ...),
    - [middleware/csrf.go]    ([CSRFWithConfig] and its token extractors),
    - [middleware/logger.go]  (two variants of [LoggerWithConfig]),

    together with the properties the design document states about them. *)

From Stdlib Require Import ZArith String Ascii List Bool Lia Sorted DecimalString.
From stdpp Require Import base option gmap strings list.

Local Open Scope string_scope.
Local Open Scope Z_scope.

(** * Part I: the embedding *)

(** ** Go machine integers *)

Module GoInt.

(** Go's [int] and [int64] are two's complement 64-bit integers; arithmetic
    wraps around silently. *)
Definition wrap64 (z : Z) : Z := (z + 2 ^ 63) mod 2 ^ 64 - 2 ^ 63.

Definition MaxInt64 : Z := 2 ^ 63 - 1.
Definition MinInt64 : Z := - 2 ^ 63.

End GoInt.

(** ** Strings as byte sequences *)

Module GoString.

(** [[]byte(s)] *)
Definition bytes (s : string) : list Z :=
  map (fun a => Z.of_nat (nat_of_ascii a)) (list_ascii_of_string s).

Definition is_byte (b : Z) : Prop := 0 <= b < 256.

(** [strings.Split(s, sep)] for a one-byte separator. *)
Fixpoint split_acc (sep : ascii) (cur : string) (s : string) : list string :=
  match s with
  | EmptyString => [cur]
  | String a t =>
      if Ascii.eqb a sep then cur :: split_acc sep EmptyString t
      else split_acc sep (String.append cur (String a EmptyString)) t
  end.

Definition Split (s : string) (sep : ascii) : list string :=
  split_acc sep EmptyString s.

(** [strings.Replace(s, old, "", -1)] for a one-byte [old]: every occurrence
    is dropped. *)
Fixpoint remove_all (old : ascii) (s : string) : string :=
  match s with
  | EmptyString => EmptyString
  | String a t =>
      if Ascii.eqb a old then remove_all old t
      else String a (remove_all old t)
  end.

End GoString.

(** ** The parts of [crypto/subtle], [net/textproto] and [net/http] the
       sources call *)

Module Subtle.

(** [ConstantTimeByteEq(x, y) = int((uint32(x^y) - 1) >> 31)] *)
Definition ConstantTimeByteEq (x y : Z) : Z :=
  Z.shiftr ((Z.lxor x y - 1) mod 2 ^ 32) 31.

(** The accumulation [v |= x[i] ^ y[i]] over all positions.  There is no
    exit before the last byte: the fold visits every pair. *)
Definition accumulate (x y : list Z) : Z :=
  fold_left (fun v p => Z.lor v (Z.lxor (fst p) (snd p))) (combine x y) 0.

(** [ConstantTimeCompare(x, y)]: 1 if the slices have equal contents, 0
    otherwise; slices of different lengths give 0 at once. *)
Definition ConstantTimeCompare (x y : list Z) : Z :=
  if Nat.eqb (List.length x) (List.length y)
  then ConstantTimeByteEq (accumulate x y) 0
  else 0.

End Subtle.

Module Http.

Definition isLower (c : ascii) : bool :=
  let n := nat_of_ascii c in (97 <=? n)%nat && (n <=? 122)%nat.
Definition isUpper (c : ascii) : bool :=
  let n := nat_of_ascii c in (65 <=? n)%nat && (n <=? 90)%nat.
Definition isDigit (c : ascii) : bool :=
  let n := nat_of_ascii c in (48 <=? n)%nat && (n <=? 57)%nat.

Definition toUpper (c : ascii) : ascii :=
  if isLower c then ascii_of_nat (nat_of_ascii c - 32) else c.
Definition toLower (c : ascii) : ascii :=
  if isUpper c then ascii_of_nat (nat_of_ascii c + 32) else c.

(** [validHeaderFieldByte]: the bytes of an RFC 7230 token. *)
Definition validHeaderFieldByte (c : ascii) : bool :=
  isLower c || isUpper c || isDigit c ||
  existsb (Ascii.eqb c) (list_ascii_of_string "!#$%&'*+-.^_`|~").

Fixpoint canonical_from (upper : bool) (s : string) : string :=
  match s with
  | EmptyString => EmptyString
  | String c t =>
      let c' := if upper then toUpper c else toLower c in
      String c' (canonical_from (Ascii.eqb c' "-"%char) t)
  end.

(** [textproto.CanonicalMIMEHeaderKey]: the first letter and every letter
    after a hyphen in upper case, the others in lower case; a key with a
    byte that is not a token byte is returned unchanged. *)
Definition CanonicalMIMEHeaderKey (s : string) : string :=
  if forallb validHeaderFieldByte (list_ascii_of_string s)
  then canonical_from true s
  else s.

(** [http.Header] and [url.Values] are both [map[string][]string]. *)
Abbreviation Values := (gmap string (list string)).

Definition first_value (vs : option (list string)) : string :=
  match vs with
  | Some (v :: _) => v
  | _ => EmptyString
  end.

(** [Header.Get], [Header.Set], [Header.Add] *)
Definition Header_Get (h : Values) (key : string) : string :=
  first_value (h !! CanonicalMIMEHeaderKey key).
Definition Header_Set (h : Values) (key value : string) : Values :=
  <[CanonicalMIMEHeaderKey key := [value]]> h.
Definition Header_Add (h : Values) (key value : string) : Values :=
  <[CanonicalMIMEHeaderKey key :=
      List.app (default [] (h !! CanonicalMIMEHeaderKey key)) [value]]> h.

(** [url.Values.Get]: no canonicalisation of the key. *)
Definition Values_Get (v : Values) (key : string) : string :=
  first_value (v !! key).

(** [http.Cookie], with the fields the sources assign.  [Expires] is an
    instant in nanoseconds since the epoch. *)
Record Cookie := mkCookie {
  Name : string;
  Value : string;
  Path : string;
  Domain : string;
  Expires : Z;
  Secure : bool;
  HttpOnly : bool
}.

(** [*http.Request]: what the handlers read.  [URLQuery] is what
    [r.URL.Query()] parses out of the raw query, [Form] what
    [r.FormValue] finds after parsing the body, [Cookies] the cookies of
    the Cookie header in order of appearance, [RemoteAddr] the caller's
    address. *)
Record Request := mkRequest {
  Method : string;
  URLPath : string;
  RawQuery : string;
  URLQuery : Values;
  Header : Values;
  Cookies : list Cookie;
  Form : Values;
  Proto : string;
  Host : string;
  RemoteAddr : string;
  TLS : bool
}.

(** How a call that may panic ends. *)
Inductive may_panic (A : Type) : Type :=
| Returns (a : A)
| Panics.

Arguments Returns {A} a.
Arguments Panics {A}.

(** The response writer, after [net/http]'s: the header map, whether a
    status has been committed and which, and the body bytes accepted so far.
    [SetCookies] are the cookies handed to [http.SetCookie].  [wFault] is the
    connection's state: [None] for a healthy one, [Some msg] for one on which
    every write of body bytes fails with that error (a connection the peer
    has closed, say). *)
Record ResponseWriter := mkResponseWriter {
  wHeader : Values;
  wroteHeader : bool;
  wStatus : Z;
  wBody : string;
  SetCookies : list Cookie;
  wFault : option string
}.

(** Committing a status. *)
Definition commit (w : ResponseWriter) (code : Z) : ResponseWriter :=
  mkResponseWriter (wHeader w) true code (wBody w) (SetCookies w) (wFault w).

(** [checkWriteHeaderCode] accepts the three-digit codes only. *)
Definition valid_code (code : Z) : bool := (100 <=? code) && (code <=? 999).

(** An informational status (1xx other than 101) is sent at once and commits
    nothing. *)
Definition informational (code : Z) : bool :=
  (100 <=? code) && (code <=? 199) && negb (code =? 101).

(** [WriteHeader]: after a status has been committed a further call changes
    nothing; otherwise a code that is not of three digits panics, an
    informational one commits nothing, and any other is committed. *)
Definition WriteHeader (w : ResponseWriter) (code : Z) : may_panic ResponseWriter :=
  if wroteHeader w then Returns w
  else if negb (valid_code code) then Panics
  else if informational code then Returns w
  else Returns (commit w code).

(** [bodyAllowedForStatus] *)
Definition bodyAllowedForStatus (status : Z) : bool :=
  negb (((100 <=? status) && (status <=? 199)) || (status =? 204) || (status =? 304)).

Definition ErrBodyNotAllowed : string :=
  "http: request method or response status code does not allow body".

(** [Write]: commits status 200 when none has been committed; an empty
    slice is accepted as it is; a status that allows no body refuses the
    bytes with [ErrBodyNotAllowed], a faulty connection with its own error;
    otherwise the bytes are appended.  The result is the writer's error. *)
Definition Write (w : ResponseWriter) (b : string) : option string * ResponseWriter :=
  let w1 := if wroteHeader w then w else commit w 200 in
  if String.eqb b EmptyString then (None, w1)
  else if negb (bodyAllowedForStatus (wStatus w1)) then (Some ErrBodyNotAllowed, w1)
  else
    match wFault w1 with
    | Some err => (Some err, w1)
    | None =>
        (None, mkResponseWriter (wHeader w1) (wroteHeader w1) (wStatus w1)
                                (String.append (wBody w1) b) (SetCookies w1)
                                (wFault w1))
    end.

Definition with_wHeader (w : ResponseWriter) (h : Values) : ResponseWriter :=
  mkResponseWriter h (wroteHeader w) (wStatus w) (wBody w) (SetCookies w) (wFault w).

Definition with_rHeader (r : Request) (h : Values) : Request :=
  mkRequest (Method r) (URLPath r) (RawQuery r) (URLQuery r) h
            (Cookies r) (Form r) (Proto r) (Host r) (RemoteAddr r) (TLS r).

Definition MethodGet := "GET".
Definition MethodHead := "HEAD".
Definition MethodOptions := "OPTIONS".
Definition MethodTrace := "TRACE".
Definition MethodPost := "POST".
Definition StatusOK : Z := 200.
Definition StatusBadRequest : Z := 400.
Definition StatusForbidden : Z := 403.

End Http.

(** ** The context and the chain executor ([context.go]) *)

Module Yee.
Import Http.

(** A Go [error]: [None] is [nil], [Some msg] an error whose [Error()] is
    [msg]. *)
Definition error := option string.

(** A value of type [interface{}] as the store holds it. *)
Inductive any : Type :=
| AString (s : string)
| AInt (z : Z)
| ABool (b : bool).

(** Severities of the logging backend, lowest first. *)
Inductive severity : Type := Trace | Debug | Info | Warn | Error | Critical.

Definition severity_rank (s : severity) : nat :=
  match s with
  | Trace => 0 | Debug => 1 | Info => 2 | Warn => 3 | Error => 4 | Critical => 5
  end%nat.

(** Modelled from the spec: the header and MIME constant table of the package
    is not among the sources; the names are the ones the design document
    gives (forwarding headers, Vary, Cookie, the canonical CSRF header). *)
Definition HeaderXForwardedProto := "X-Forwarded-Proto".
Definition HeaderXForwardedProtocol := "X-Forwarded-Protocol".
Definition HeaderXForwardedSsl := "X-Forwarded-Ssl".
Definition HeaderXUrlScheme := "X-Url-Scheme".
Definition HeaderContentType := "Content-Type".
Definition HeaderContentLength := "Content-Length".
Definition HeaderVary := "Vary".
Definition HeaderCookie := "Cookie".
Definition HeaderXCSRFToken := "X-CSRF-Token".
Definition MIMETextPlainCharsetUTF8 := "text/plain; charset=UTF-8".
Definition MIMETextHTMLCharsetUTF8 := "text/html; charset=UTF-8".
Definition MIMEApplicationJSONCharsetUTF8 := "application/json; charset=UTF-8".
Definition ErrInvalidRedirectCode : error := Some "invalid redirect status code".

(** Everything a handler reaches through the [Context] interface, and the
    outside world it talks to: the request [r], the response writer [w], the
    cached query [queryList], the router's [params], the [store] ([None] is
    the nil map), the wall clock [now] in nanoseconds, the system's random
    bytes ([entropy], read at [entropy_pos]) and the lines handed to the
    logging backend ([sink]).  [compared] is a ghost field: the pairs of
    tokens handed to [validateCSRFToken], oldest first. *)
Record world := mkWorld {
  r : Request;
  w : ResponseWriter;
  queryList : option Values;
  params : gmap string string;
  store : option (gmap string any);
  now : Z;
  entropy : nat -> Byte.byte;
  entropy_pos : nat;
  sink : list (severity * string);
  compared : list (string * string)
}.

Definition with_r (e : world) (x : Request) : world :=
  mkWorld x (w e) (queryList e) (params e) (store e) (now e)
          (entropy e) (entropy_pos e) (sink e) (compared e).
Definition with_w (e : world) (x : ResponseWriter) : world :=
  mkWorld (r e) x (queryList e) (params e) (store e) (now e)
          (entropy e) (entropy_pos e) (sink e) (compared e).
Definition with_queryList (e : world) (x : option Values) : world :=
  mkWorld (r e) (w e) x (params e) (store e) (now e)
          (entropy e) (entropy_pos e) (sink e) (compared e).
Definition with_store (e : world) (x : option (gmap string any)) : world :=
  mkWorld (r e) (w e) (queryList e) (params e) x (now e)
          (entropy e) (entropy_pos e) (sink e) (compared e).
Definition with_entropy_pos (e : world) (x : nat) : world :=
  mkWorld (r e) (w e) (queryList e) (params e) (store e) (now e)
          (entropy e) x (sink e) (compared e).
Definition with_sink (e : world) (x : list (severity * string)) : world :=
  mkWorld (r e) (w e) (queryList e) (params e) (store e) (now e)
          (entropy e) (entropy_pos e) x (compared e).
Definition with_compared (e : world) (x : list (string * string)) : world :=
  mkWorld (r e) (w e) (queryList e) (params e) (store e) (now e)
          (entropy e) (entropy_pos e) (sink e) x.

(** A method of the interface: a state transformer over the world. *)
Definition M (A : Type) : Type := world -> A * world.

(** The body of a handler, as the sequence of things it does with its
    context: return an error value, panic, call [c.Next()] and go on, or call
    any other method of the interface and go on with its result.  A handler
    has no other access to the context: [index], [intercept] and [handlers]
    are unexported and no interface method touches them but [Next]. *)
Inductive prog : Type :=
| Return (err : error)
| Throw
| CallNext (k : prog)
| Call (A : Type) (m : M A) (k : A -> prog).

Arguments Call {A} m k.

Notation "'let*' x ':=' m 'in' k" := (Call m (fun x => k))
  (at level 10, x name, m at level 100, k at level 200, only parsing).
Notation "m ';;' k" := (Call m (fun _ => k))
  (at level 100, k at level 200, right associativity, only parsing).
Notation "'let!' x ':=' m 'in' k" :=
  (Call m (fun res => match res with Returns x => k | Panics => Throw end))
  (at level 10, x name, m at level 100, k at level 200, only parsing).

(** [HandlerFunc] is a struct of the function and the middleware tag. *)
Record HandlerFunc := mkHandlerFunc {
  Func : prog;
  IsMiddleware : bool
}.

(** Ghost events of the executor: the handler at index [i] is entered, the
    handler at index [i] has returned [err]. *)
Inductive event : Type :=
| Invoke (i : Z)
| Returned (i : Z) (err : error).

(** The [context] struct.  [trace] is a ghost field, the events so far,
    oldest first. *)
Record context := mkContext {
  pub : world;
  path : string;
  method : string;
  handlers : list HandlerFunc;
  index : Z;
  intercept : bool;
  trace : list event
}.

Definition with_pub (c : context) (e : world) : context :=
  mkContext e (path c) (method c) (handlers c) (index c) (intercept c) (trace c).
Definition with_handlers (c : context) (hs : list HandlerFunc) : context :=
  mkContext (pub c) (path c) (method c) hs (index c) (intercept c) (trace c).
Definition with_index (c : context) (i : Z) : context :=
  mkContext (pub c) (path c) (method c) (handlers c) i (intercept c) (trace c).
Definition with_intercept (c : context) (b : bool) : context :=
  mkContext (pub c) (path c) (method c) (handlers c) (index c) b (trace c).
Definition record (ev : event) (c : context) : context :=
  mkContext (pub c) (path c) (method c) (handlers c) (index c) (intercept c)
            (List.app (trace c) [ev]).

(** [newContext]: the cursor starts below the first index. *)
Definition newContext (e : world) : context :=
  mkContext e (URLPath (r e)) (Method (r e)) [] (-1) false [].

(** How a call ends: it returns, it panics, or the model ran out of fuel. *)
Inductive outcome (A : Type) : Type :=
| Ok (a : A) (c : context)
| Panicked (c : context)
| OutOfFuel.

Arguments Ok {A} a c.
Arguments Panicked {A} c.
Arguments OutOfFuel {A}.

(** Running a handler body, given what [c.Next()] does. *)
Fixpoint exec (next : context -> outcome unit) (p : prog) (c : context)
  : outcome error :=
  match p with
  | Return err => Ok err c
  | Throw => Panicked c
  | CallNext k =>
      match next c with
      | Ok _ c' => exec next k c'
      | Panicked c' => Panicked c'
      | OutOfFuel => OutOfFuel
      end
  | Call m k =>
      let '(a, e') := m (pub c) in exec next (k a) (with_pub c e')
  end.

(** [c.index++] *)
Definition incr (c : context) : context :=
  with_index c (GoInt.wrap64 (index c + 1)).

(** [c.handlers[c.index]]: an index out of range panics. *)
Definition handler_at (c : context) : option HandlerFunc :=
  if index c <? 0 then None else handlers c !! Z.to_nat (index c).

(** The loop of [Next], entered after the statement [c.index++]:
<<
    for ; c.index < s; c.index++ {
        if c.intercept { break }
        if err := c.handlers[c.index].Func(c); err != nil {
            c.intercept = true
        }
    }
>>
    One unit of fuel is spent per iteration; the handler's own calls of
    [Next] run on what is left. *)
Fixpoint loop (fuel : nat) (s : Z) (c : context) : outcome unit :=
  match fuel with
  | O => OutOfFuel
  | S n =>
      if index c <? s then
        if intercept c then Ok tt c
        else
          match handler_at c with
          | None => Panicked c
          | Some h =>
              match exec (fun c' => loop n (Z.of_nat (List.length (handlers c'))) (incr c'))
                         (Func h) (record (Invoke (index c)) c) with
              | Ok err c' =>
                  let c'' := record (Returned (index c) err) c' in
                  loop n s (incr (match err with
                                  | Some _ => with_intercept c'' true
                                  | None => c''
                                  end))
              | Panicked c' => Panicked c'
              | OutOfFuel => OutOfFuel
              end
          end
      else Ok tt c
  end.

(** [Next] with a given amount of fuel. *)
Definition Next_fuel (fuel : nat) (c : context) : outcome unit :=
  loop fuel (Z.of_nat (List.length (handlers c))) (incr c).

(** [Next]: one more unit of fuel than there are handlers is always enough
    (lemma [Next_total] below). *)
Definition Next (c : context) : outcome unit :=
  Next_fuel (S (List.length (handlers c))) c.

(** The life of one context: the router builds it over the resolved handler
    list and runs its own code [driver] on it (usually a single [c.Next()]). *)
Definition serve (hs : list HandlerFunc) (driver : prog) (e : world)
  : outcome error :=
  exec Next driver (with_handlers (newContext e) hs).

(** The indices of the handlers entered, in order of entry. *)
Fixpoint invoked (tr : list event) : list Z :=
  match tr with
  | [] => []
  | Invoke i :: t => i :: invoked t
  | Returned _ _ :: t => invoked t
  end.

Definition final {A} (o : outcome A) : option context :=
  match o with
  | Ok _ c => Some c
  | Panicked c => Some c
  | OutOfFuel => None
  end.

(** *** The methods of the interface *)

Definition ret {A} (a : A) : M A := fun e => (a, e).

(** [Put]: the store is made on the first write. *)
Definition Put (key : string) (values : any) : M unit := fun e =>
  let m := match store e with None => ∅ | Some m => m end in
  (tt, with_store e (Some (<[key := values]> m))).

(** [Get]: a missing key, or a nil store, gives nil. *)
Definition Get (key : string) : M (option any) := fun e =>
  (match store e with None => None | Some m => m !! key end, e).

Definition GetMethod : M string := fun e => (Method (r e), e).

Definition writeContentType (value : string) : M unit := fun e =>
  let header := wHeader (w e) in
  if String.eqb (Header_Get header HeaderContentType) EmptyString
  then (tt, with_w e (with_wHeader (w e) (Header_Set header HeaderContentType value)))
  else (tt, e).

(** [Blob]: the content type, the status, the body; the result is the
    error of [c.w.Write(b)], and a panic of [c.w.WriteHeader(code)] is a
    panic of [Blob]. *)
Definition Blob (code : Z) (contentType : string) (b : string)
  : M (may_panic error) := fun e =>
  let '(_, e1) := writeContentType contentType e in
  match WriteHeader (w e1) code with
  | Panics => (Panics, e1)
  | Returns w2 =>
      let '(err, w3) := Write w2 b in (Returns err, with_w e1 w3)
  end.

Definition HTMLBlob (code : Z) (b : string) : M (may_panic error) :=
  Blob code MIMETextHTMLCharsetUTF8 b.
Definition HTML (code : Z) (html : string) : M (may_panic error) :=
  HTMLBlob code html.
Definition String_ (code : Z) (s : string) : M (may_panic error) :=
  Blob code MIMETextPlainCharsetUTF8 s.

(** [MiddError], for a non-nil [err] with message [msg]: the error of
    [c.String] is dropped, [err] is returned. *)
Definition MiddError (code : Z) (msg : string) : M (may_panic error) := fun e =>
  match String_ code msg e with
  | (Panics, e1) => (Panics, e1)
  | (Returns _, e1) => (Returns (Some msg), e1)
  end.

Definition Status (code : Z) : M (may_panic unit) := fun e =>
  match WriteHeader (w e) code with
  | Panics => (Panics, e)
  | Returns w1 => (Returns tt, with_w e w1)
  end.

Definition SetHeader (key value : string) : M unit := fun e =>
  (tt, with_w e (with_wHeader (w e) (Header_Set (wHeader (w e)) key value))).
Definition AddHeader (key value : string) : M unit := fun e =>
  (tt, with_w e (with_wHeader (w e) (Header_Add (wHeader (w e)) key value))).

(** [GetHeader] reads the header map of the response writer, [c.w.Header()]. *)
Definition GetHeader (key : string) : M string := fun e =>
  (Header_Get (wHeader (w e)) key, e).

Definition Params (name : string) : M string := fun e =>
  (default EmptyString (params e !! name), e).

(** [QueryParam]: the parsed query is cached on first use. *)
Definition QueryParam (name : string) : M string := fun e =>
  let e1 := match queryList e with
            | None => with_queryList e (Some (URLQuery (r e)))
            | Some _ => e
            end in
  (Values_Get (default ∅ (queryList e1)) name, e1).

Definition QueryString : M string := fun e => (RawQuery (r e), e).
Definition FormValue (name : string) : M string := fun e =>
  (Values_Get (Form (r e)) name, e).
Definition IsTls : M bool := fun e => (TLS (r e), e).
Definition Request : M Http.Request := fun e => (r e, e).
Definition Response : M ResponseWriter := fun e => (w e, e).

(** [Scheme] *)
Definition Scheme (e : world) : string :=
  let scheme := "http" in
  let h := Header (r e) in
  let proto := Header_Get h HeaderXForwardedProto in
  if negb (String.eqb proto EmptyString) then proto else
  let protocol := Header_Get h HeaderXForwardedProtocol in
  if negb (String.eqb protocol EmptyString) then protocol else
  let ssl := Header_Get h HeaderXForwardedSsl in
  if String.eqb ssl "on" then "https" else
  let url_scheme := Header_Get h HeaderXUrlScheme in
  if negb (String.eqb url_scheme EmptyString) then url_scheme else
  scheme.

(** [Redirect]: the Location is set on [c.r.Header], the header map of the
    request. *)
Definition Redirect (code : Z) (uri : string) : M (may_panic error) := fun e =>
  if (code <? 300) || (code >? 308) then (Returns ErrInvalidRedirectCode, e)
  else
    let e1 := with_r e (with_rHeader (r e) (Header_Set (Header (r e)) "Location" uri)) in
    match WriteHeader (w e1) code with
    | Panics => (Panics, e1)
    | Returns w1 => (Returns None, with_w e1 w1)
    end.

(** Modelled from the spec: [Cookie], [SetCookie] and [ServerError] are
    methods the CSRF middleware calls that are not among the sources.
    [Cookie] gives the request cookie of that name, or an error when the
    request carries none; [SetCookie] adds a cookie to the response;
    [ServerError] is the design document's reportError for a message: it
    writes the message as the body with the given status and returns the
    (non-nil) error. *)
Definition ErrNoCookie : error := Some "http: named cookie not present".

Definition Cookie (name : string) : M (option Http.Cookie * error) := fun e =>
  match List.find (fun ck => String.eqb (Name ck) name) (Cookies (r e)) with
  | Some ck => ((Some ck, None), e)
  | None => ((None, ErrNoCookie), e)
  end.

Definition SetCookie (ck : Http.Cookie) : M unit := fun e =>
  let w0 := w e in
  (tt, with_w e (mkResponseWriter (wHeader w0) (wroteHeader w0) (wStatus w0)
                                  (wBody w0) (List.app (SetCookies w0) [ck])
                                  (wFault w0))).

Definition ServerError (code : Z) (msg : string) : M (may_panic error) := fun e =>
  match String_ code msg e with
  | (Panics, e1) => (Panics, e1)
  | (Returns _, e1) => (Returns (Some msg), e1)
  end.

End Yee.

(** ** [github.com/google/uuid] and [time], as far as the middleware uses them *)

Module Uuid.
Import Yee.

(** Lower-case hexadecimal digit of a nibble. *)
Definition hex_digit (d : Z) : ascii :=
  match d with
  | 0 => "0" | 1 => "1" | 2 => "2" | 3 => "3" | 4 => "4" | 5 => "5"
  | 6 => "6" | 7 => "7" | 8 => "8" | 9 => "9" | 10 => "a" | 11 => "b"
  | 12 => "c" | 13 => "d" | 14 => "e" | _ => "f"
  end%char.

Definition hex_byte (b : Z) : string :=
  String (hex_digit (Z.shiftr b 4)) (String (hex_digit (Z.land b 15)) EmptyString).

Definition hex (bs : list Z) : string :=
  fold_right (fun b acc => String.append (hex_byte b) acc) EmptyString bs.

(** [uuid.New()]: sixteen random bytes with the version (4) and variant bits
    set. *)
Definition New : M (list Z) := fun e =>
  let raw := map (fun i => Z.of_N (Byte.to_N (entropy e (entropy_pos e + i)%nat)))
                 (seq 0 16) in
  let b6 := Z.lor (Z.land (nth 6 raw 0) 15) 64 in
  let b8 := Z.lor (Z.land (nth 8 raw 0) 63) 128 in
  (<[8%nat := b8]> (<[6%nat := b6]> raw),
   with_entropy_pos e (entropy_pos e + 16)%nat).

(** [UUID.String()]: the form xxxxxxxx-xxxx-xxxx-xxxx-xxxxxxxxxxxx. *)
Definition String_ (u : list Z) : string :=
  String.append (hex (firstn 4 u)) (String "-"
 (String.append (hex (firstn 2 (skipn 4 u))) (String "-"
 (String.append (hex (firstn 2 (skipn 6 u))) (String "-"
 (String.append (hex (firstn 2 (skipn 8 u))) (String "-"
                (hex (skipn 10 u))))))))).

End Uuid.

Module Time.
Import Yee.

(** [time.Now()], and [t.Add(time.Duration(n) * time.Second)]: the duration
    is an [int64] count of nanoseconds, so the product wraps. *)
Definition Now : M Z := fun e => (now e, e).
Definition Second : Z := 1000000000.
Definition seconds (n : Z) : Z := GoInt.wrap64 (n * Second).
Definition Add (t d : Z) : Z := t + d.

End Time.

(** ** The CSRF middleware ([middleware/csrf.go]) *)

Module Middleware.
Import Http Yee.

Record CSRFConfig := mkCSRFConfig {
  TokenLength : Z;
  TokenLookup : string;
  Key : string;
  CookieName : string;
  CookieDomain : string;
  CookiePath : string;
  CookieMaxAge : Z;
  CookieSecure : bool;
  CookieHTTPOnly : bool
}.

Definition CSRFDefaultConfig : CSRFConfig :=
  mkCSRFConfig 16 (String.append "header:" HeaderXCSRFToken) "csrf" "_csrf"
               EmptyString EmptyString 28800 false false.

(** The five defaulting statements at the head of [CSRFWithConfig]. *)
Definition with_defaults (config : CSRFConfig) : CSRFConfig :=
  mkCSRFConfig
    (if TokenLength config =? 0 then TokenLength CSRFDefaultConfig
     else TokenLength config)
    (if String.eqb (TokenLookup config) EmptyString
     then TokenLookup CSRFDefaultConfig else TokenLookup config)
    (if String.eqb (Key config) EmptyString
     then Key CSRFDefaultConfig else Key config)
    (if String.eqb (CookieName config) EmptyString
     then CookieName CSRFDefaultConfig else CookieName config)
    (CookieDomain config)
    (CookiePath config)
    (if CookieMaxAge config =? 0 then CookieMaxAge CSRFDefaultConfig
     else CookieMaxAge config)
    (CookieSecure config)
    (CookieHTTPOnly config).

Definition csrfTokenCreator : Type := M (string * error).

Definition csrfTokenFromHeader (header : string) : csrfTokenCreator := fun e =>
  let '(token, e1) := GetHeader header e in
  if String.eqb token EmptyString
  then ((EmptyString, Some "missing csrf token in the header string"), e1)
  else ((token, None), e1).

Definition csrfTokenFromQuery (param : string) : csrfTokenCreator := fun e =>
  let '(token, e1) := QueryParam param e in
  if String.eqb token EmptyString
  then ((EmptyString, Some "missing csrf token in the query string"), e1)
  else ((token, None), e1).

Definition csrfTokenFromForm (param : string) : csrfTokenCreator := fun e =>
  let '(token, e1) := FormValue param e in
  if String.eqb token EmptyString
  then ((EmptyString, Some "missing csrf token in the form string"), e1)
  else ((token, None), e1).

Definition validateCSRFToken (token clientToken : string) : bool :=
  Subtle.ConstantTimeCompare (GoString.bytes token) (GoString.bytes clientToken) =? 1.

(** The call of [validateCSRFToken] in the handler, noted in the ghost field
    [compared]. *)
Definition validate (token clientToken : string) : M bool := fun e =>
  (validateCSRFToken token clientToken,
   with_compared e (List.app (compared e) [(token, clientToken)])).

(** [strings.Replace(uuid.New().String(), "-", "", -1)] *)
Definition fresh_token : M string := fun e =>
  let '(u, e1) := Uuid.New e in
  (GoString.remove_all "-" (Uuid.String_ u), e1).

Definition is_safe_method (m : string) : bool :=
  String.eqb m MethodGet || String.eqb m MethodTrace ||
  String.eqb m MethodOptions || String.eqb m MethodHead.

(** The cookie the handler builds at the end. *)
Definition new_cookie (config : CSRFConfig) (token : string) (t : Z) : Http.Cookie :=
  mkCookie (CookieName config) token
           (if negb (String.eqb (CookiePath config) EmptyString)
            then CookiePath config else EmptyString)
           (if negb (String.eqb (CookieDomain config) EmptyString)
            then CookieDomain config else EmptyString)
           (Time.Add t (Time.seconds (CookieMaxAge config)))
           (CookieSecure config)
           (CookieHTTPOnly config).

(** The tail of the handler, from [nCookie := new(http.Cookie)] on.  The
    final bare [return] gives back the named result [err], which the short
    declaration [k, err := context.Cookie(...)] at the head has assigned. *)
Definition issue (config : CSRFConfig) (token : string) (err : error) : prog :=
  let* t := Time.Now in
  SetCookie (new_cookie config token t) ;;
  Put (Key config) (AString token) ;;
  SetHeader HeaderVary HeaderCookie ;;
  CallNext (Return err).

(** The handler [CSRFWithConfig] returns, for the defaulted [config] and the
    chosen extractor. *)
Definition csrf_handler (config : CSRFConfig) (creator : csrfTokenCreator) : prog :=
  let* found := Cookie (CookieName config) in
  let '(k, err) := found in
  let* token := match k with
                | None => fresh_token
                | Some ck => ret (Value ck)
                end in
  let* rq := Request in
  if is_safe_method (Method rq) then issue config token err
  else
    let* extracted := creator in
    let '(clientToken, e) := extracted in
    match e with
    | Some msg =>
        let! res := ServerError StatusBadRequest msg in Return res
    | None =>
        let* ok := validate token clientToken in
        if negb ok
        then let! res := ServerError StatusForbidden "invalid csrf token" in
             Return res
        else issue config token err
    end.

(** What constructing a middleware comes to: a handler, a fatal exit of the
    process ([log.Fatalf]), or a panic. *)
Inductive construction : Type :=
| Built (h : prog)
| Fatal (msg : string)
| SetupPanic.

(** The choice of the extractor: the header one unless the source is
    "query" or "form". *)
Definition choose_creator (source field : string) : csrfTokenCreator :=
  if String.eqb source "query" then csrfTokenFromQuery field
  else if String.eqb source "form" then csrfTokenFromForm field
  else csrfTokenFromHeader field.

(** [CSRFWithConfig]: [proc[1]] panics when the lookup string has no colon. *)
Definition CSRFWithConfig (config : CSRFConfig) : construction :=
  let config := with_defaults config in
  let proc := GoString.Split (TokenLookup config) ":" in
  match proc !! 1%nat with
  | None => SetupPanic
  | Some field =>
      let creator := choose_creator (default EmptyString (proc !! 0%nat)) field in
      Built (csrf_handler config creator)
  end.

Definition CSRF : construction := CSRFWithConfig CSRFDefaultConfig.

End Middleware.

(** ** Vocabulary for the properties of the CSRF middleware *)

Module CsrfModel.
Import Http Yee Middleware.

(** Source and field name of the configured lookup string. *)
Definition lookup_source (config : CSRFConfig) : string :=
  default EmptyString (GoString.Split (TokenLookup config) ":" !! 0%nat).
Definition lookup_field (config : CSRFConfig) : string :=
  default EmptyString (GoString.Split (TokenLookup config) ":" !! 1%nat).

(** The value the request carries at the configured location, in the design
    document's words: a header of the request, a parameter of its query or a
    field of its form. *)
Definition supplied (source field : string) (rq : Http.Request) : string :=
  if String.eqb source "query" then Values_Get (URLQuery rq) field
  else if String.eqb source "form" then Values_Get (Form rq) field
  else Header_Get (Header rq) field.

(** What the chosen extractor reads, as the code has it: [QueryParam] the
    parsed query (the cached one when there is a cache), [FormValue] the
    form, and [GetHeader], for every other source, the header map of the
    response writer. *)
Definition extractor_reads (source field : string) (e : world) : string :=
  if String.eqb source "query"
  then Values_Get (default (URLQuery (r e)) (queryList e)) field
  else if String.eqb source "form" then Values_Get (Form (r e)) field
  else Header_Get (wHeader (w e)) field.

(** The reference token: the value of the request cookie of the configured
    name, or a fresh one; with it the error of the cookie lookup and the
    world after the token is there. *)
Definition reference_token (config : CSRFConfig) (e : world)
  : string * error * world :=
  match List.find (fun ck => String.eqb (Name ck) (CookieName config))
                  (Cookies (r e)) with
  | Some ck => (Value ck, None, e)
  | None => let '(t, e1) := fresh_token e in (t, ErrNoCookie, e1)
  end.

(** The world after the cookie, the store entry and the Vary header. *)
Definition issued (config : CSRFConfig) (token : string) (e : world) : world :=
  snd (SetHeader HeaderVary HeaderCookie
         (snd (Put (Key config) (AString token)
                 (snd (SetCookie (new_cookie config token (now e)) e))))).

(** The world after [ServerError]. *)
Definition rejected (code : Z) (msg : string) (e : world) : world :=
  snd (ServerError code msg e).

(** The world after the comparison has been noted. *)
Definition noted (token clientToken : string) (e : world) : world :=
  with_compared e (List.app (compared e) [(token, clientToken)]).

(** What a handler that calls [Next] and returns [err] comes to. *)
Definition then_return (next : context -> outcome unit) (c : context) (err : error)
  : outcome error :=
  match next c with
  | Ok _ c' => Ok err c'
  | Panicked c' => Panicked c'
  | OutOfFuel => OutOfFuel
  end.

Definition is_hex_digit (a : ascii) : bool :=
  existsb (Ascii.eqb a) (list_ascii_of_string "0123456789abcdef").

End CsrfModel.

(** ** [github.com/valyala/fasttemplate], as far as the logger uses it *)

Module FastTemplate.

Inductive segment : Type :=
| Text (s : string)
| Tag (s : string).

Definition Template : Type := list segment.

Definition snoc (s : string) (c : ascii) : string :=
  String.append s (String c EmptyString).

(** [NewTemplate(template, "${", "}")]: the text up to the next start tag,
    then the tag name up to the next end tag, and so on; a start tag with no
    end tag after it is an error ("Cannot find end tag"). *)
Fixpoint scan_text (acc : string) (s : string) {struct s} : option Template :=
  match s with
  | EmptyString => Some [Text acc]
  | String c t =>
      if Ascii.eqb c "$" then
        match t with
        | String c2 rest =>
            if Ascii.eqb c2 "{"
            then option_map (cons (Text acc)) (scan_tag EmptyString rest)
            else scan_text (snoc acc c) t
        | EmptyString => scan_text (snoc acc c) t
        end
      else scan_text (snoc acc c) t
  end
with scan_tag (acc : string) (s : string) {struct s} : option Template :=
  match s with
  | EmptyString => None
  | String c t =>
      if Ascii.eqb c "}"
      then option_map (cons (Tag acc)) (scan_text EmptyString t)
      else scan_tag (snoc acc c) t
  end.

Definition NewTemplate (template : string) : option Template :=
  scan_text EmptyString template.

(** [ExecuteFuncString]: the texts as they are, each tag replaced by what
    the function writes for it. *)
Definition ExecuteFuncString (t : Template) (f : string -> string) : string :=
  fold_right (fun seg acc =>
                String.append (match seg with Text s => s | Tag tag => f tag end) acc)
             EmptyString t.

End FastTemplate.

(** ** The access logger ([middleware/logger.go], two variants) *)

Module Logger.
Import Http Yee FastTemplate Middleware.

Record LoggerConfig := mkLoggerConfig {
  Format : string;
  Level : Z;
  IsLogger : bool
}.

Definition dq : string := String (ascii_of_nat 34) EmptyString.
Definition quoted (s : string) : string := String.append dq (String.append s dq).

Fixpoint concat_all (l : list string) : string :=
  match l with
  | [] => EmptyString
  | s :: t => String.append s (concat_all t)
  end.

(** [fmt.Sprintf("%d", n)] *)
Definition sprintf_d (n : Z) : string := NilZero.string_of_int (Z.to_int n).

(** Handing a line to the logging backend at a severity. *)
Definition emit (sev : severity) (line : string) : M unit := fun e =>
  (tt, with_sink e (List.app (sink e) [(sev, line)])).

(** Modelled from the spec: the response wrapper behind
    [context.Response()] and [context.RemoteIP()] are not among the sources;
    [Status()] is the final status code, [Size()] the count of body bytes
    committed, [Body()] those bytes, [RemoteIP()] the caller's address. *)
Definition Response_Status (e : world) : Z := wStatus (w e).
Definition Response_Size (e : world) : Z := Z.of_nat (String.length (wBody (w e))).
Definition Response_Body (e : world) : string := wBody (w e).
Definition RemoteIP (e : world) : string := RemoteAddr (r e).

(** *** The variant with the threshold *)

Module V1.

Definition DefaultLoggerConfig : LoggerConfig :=
  mkLoggerConfig
    (concat_all
       [quoted "url"; ":"; quoted "${url}"; " ";
        quoted "method"; ":"; quoted "${method}"; " ";
        quoted "status"; ":${status} ";
        quoted "protocol"; ":"; quoted "${protocol}"; " ";
        quoted "remote_ip"; ":"; quoted "${remote_ip}"; " ";
        quoted "bytes_in"; ": "; quoted "${bytes_in} bytes"; " ";
        quoted "bytes_out"; ": "; quoted "${bytes_out} bytes"])
    3 true.

Definition with_defaults (config : LoggerConfig) : LoggerConfig :=
  mkLoggerConfig
    (if String.eqb (Format config) EmptyString
     then Format DefaultLoggerConfig else Format config)
    (if Level config =? 0 then Level DefaultLoggerConfig else Level config)
    (IsLogger config).

(** The tag function of the handler. *)
Definition tag_value (e : world) (tag : string) : string :=
  if String.eqb tag "url" then
    let p := URLPath (r e) in
    if String.eqb p EmptyString then "/" else p
  else if String.eqb tag "method" then Method (r e)
  else if String.eqb tag "status" then sprintf_d (Response_Status e)
  else if String.eqb tag "remote_ip" then RemoteIP e
  else if String.eqb tag "host" then Host (r e)
  else if String.eqb tag "protocol" then Proto (r e)
  else if String.eqb tag "bytes_in" then
    let cl := Header_Get (Header (r e)) HeaderContentLength in
    if String.eqb cl EmptyString then "0" else cl
  else if String.eqb tag "bytes_out" then sprintf_d (Response_Size e)
  else EmptyString.

Definition render (t : Template) : M string := fun e =>
  (ExecuteFuncString t (tag_value e), e).

(** The severity of the line. *)
Definition severity_of (status : Z) : severity :=
  if status <? 400 then Info else Warn.

Definition logger_handler (t : Template) : prog :=
  CallNext (
    let* s := render t in
    let* resp := Response in
    if wStatus resp <? 400
    then (emit Info s ;; Return None)
    else (emit Warn s ;; Return None)).

(** [LoggerWithConfig]: a format that does not parse ends the process. *)
Definition LoggerWithConfig (config : LoggerConfig) : construction :=
  let config := with_defaults config in
  match NewTemplate (Format config) with
  | None => Fatal "unexpected error when parsing template"
  | Some t => Built (logger_handler t)
  end.

Definition Logger : construction := LoggerWithConfig DefaultLoggerConfig.

End V1.

(** *** The variant that singles out status 200 *)

Module V2.

Definition DefaultLoggerConfig : LoggerConfig :=
  mkLoggerConfig
    (concat_all
       [quoted "url"; ":"; quoted "${url}"; " ";
        quoted "method"; ":"; quoted "${method}"; " ";
        quoted "status"; ":${status} ";
        quoted "protocol"; ":"; quoted "${protocol}"; " ";
        quoted "remote_ip"; ":"; quoted "${remote_ip}"; " ";
        quoted "error"; ":"; quoted "${error}"; " ";
        quoted "bytes_in"; ": "; quoted "${bytes_in} bytes"; " ";
        quoted "bytes_out"; ": "; quoted "${bytes_out} bytes"])
    3 true.

Definition with_defaults (config : LoggerConfig) : LoggerConfig :=
  mkLoggerConfig
    (if String.eqb (Format config) EmptyString
     then Format DefaultLoggerConfig else Format config)
    (if Level config =? 0 then Level DefaultLoggerConfig else Level config)
    true.

Definition tag_value (e : world) (tag : string) : string :=
  if String.eqb tag "url" then
    let p := URLPath (r e) in
    if String.eqb p EmptyString then "/" else p
  else if String.eqb tag "method" then Method (r e)
  else if String.eqb tag "status" then sprintf_d (Response_Status e)
  else if String.eqb tag "remote_ip" then RemoteIP e
  else if String.eqb tag "host" then Host (r e)
  else if String.eqb tag "protocol" then Proto (r e)
  else if String.eqb tag "bytes_in" then
    let cl := Header_Get (Header (r e)) HeaderContentLength in
    if String.eqb cl EmptyString then "0" else cl
  else if String.eqb tag "bytes_out" then sprintf_d (Response_Size e)
  else if String.eqb tag "error" then
    if negb (Response_Status e =? 200) then Response_Body e else EmptyString
  else EmptyString.

Definition render (t : Template) : M string := fun e =>
  (ExecuteFuncString t (tag_value e), e).

Definition severity_of (status : Z) : severity :=
  if status =? 200 then Trace else Warn.

(** The handler, for the template pointer [t] the construction holds: [None]
    is the nil pointer [NewTemplate] returns with an error, and
    [ExecuteFuncString] on it is a nil dereference. *)
Definition logger_handler (t : option Template) : prog :=
  CallNext (
    match t with
    | None => Throw
    | Some t =>
        let* s := render t in
        let* resp := Response in
        if wStatus resp =? 200
        then (emit Trace s ;; Return None)
        else (emit Warn s ;; Return None)
    end).

(** [LoggerWithConfig]: the branch [if err != nil] is empty, the handler is
    built around whatever [NewTemplate] returned. *)
Definition LoggerWithConfig (config : LoggerConfig) : HandlerFunc :=
  let config := with_defaults config in
  let t := NewTemplate (Format config) in
  mkHandlerFunc (logger_handler t) true.

Definition Logger : HandlerFunc := LoggerWithConfig DefaultLoggerConfig.

End V2.

End Logger.

(** ** Sample requests and handlers *)

Module Samples.
Import Http Yee Middleware.

Definition request (meth : string) (header : Values) (cookies : list Http.Cookie)
  : Http.Request :=
  mkRequest meth "/" EmptyString ∅ header cookies ∅ "HTTP/1.1" "example.org"
            "192.0.2.1" false.

Definition blank_writer : ResponseWriter :=
  mkResponseWriter ∅ false 0 EmptyString [] None.

(** A world around a request: nothing written, nothing stored, the clock at
    zero and a given source of random bytes. *)
Definition world_of (rq : Http.Request) (rnd : nat -> Byte.byte) : world :=
  mkWorld rq blank_writer None ∅ None 0 rnd 0 [] [].

Definition zeros : nat -> Byte.byte := fun _ => Byte.x00.

Definition get_world : world := world_of (request MethodGet ∅ []) zeros.
Definition post_world : world := world_of (request MethodPost ∅ []) zeros.

(** A terminal handler, a middleware that wraps the rest of the chain, and a
    handler that fails. *)
Definition terminal : HandlerFunc := mkHandlerFunc (Return None) false.
Definition wrapper : HandlerFunc := mkHandlerFunc (CallNext (Return None)) true.
Definition failing : HandlerFunc := mkHandlerFunc (Return (Some "boom")) false.

(** The router's code: one call of [Next]. *)
Definition once : prog := CallNext (Return None).

(** The CSRF handler of the default configuration. *)
Definition default_csrf : prog :=
  csrf_handler (with_defaults CSRFDefaultConfig)
               (choose_creator "header" HeaderXCSRFToken).

(** A POST request that carries the token [t] twice, in the cookie [_csrf]
    and in the request header X-CSRF-Token. *)
Definition token_cookie (t : string) : Http.Cookie :=
  mkCookie "_csrf" t EmptyString EmptyString 0 false false.
Definition header_replay (t : string) : world :=
  world_of (request MethodPost (Header_Set ∅ HeaderXCSRFToken t) [token_cookie t])
           zeros.

(** A POST request with the cookie [_csrf=abc] and an empty X-CSRF-Token
    header, and a handler in front of the CSRF middleware that puts a token
    into the X-CSRF-Token header of the response. *)
Definition empty_header_token : world :=
  world_of (request MethodPost (Header_Set ∅ HeaderXCSRFToken EmptyString)
                    [token_cookie "abc"]) zeros.
Definition exposing (t : string) : HandlerFunc :=
  mkHandlerFunc (SetHeader HeaderXCSRFToken t ;; Return None) true.

End Samples.

(** * Part II: properties *)

(** ** Machine integers and byte strings *)

Module GoFacts.
Import GoInt GoString.

Lemma wrap64_range z : MinInt64 <= wrap64 z <= MaxInt64.
Proof.
  unfold wrap64, MinInt64, MaxInt64.
  pose proof (Z.mod_pos_bound (z + 2 ^ 63) (2 ^ 64) ltac:(lia)). lia.
Qed.

Lemma wrap64_small z : MinInt64 <= z <= MaxInt64 -> wrap64 z = z.
Proof.
  unfold wrap64, MinInt64, MaxInt64. intros H.
  rewrite Z.mod_small by lia. lia.
Qed.

(** Incrementing a cursor that is not negative either adds one or, at the
    largest value, wraps to a negative number. *)
Lemma wrap64_succ z :
  -1 <= z <= MaxInt64 ->
  wrap64 (z + 1) = z + 1 \/ wrap64 (z + 1) < 0.
Proof.
  intros H. destruct (Z.eq_dec z MaxInt64) as [->|Hne].
  - right. reflexivity.
  - left. apply wrap64_small. unfold MinInt64, MaxInt64 in *. lia.
Qed.

Lemma bytes_are_bytes s : Forall is_byte (bytes s).
Proof.
  unfold bytes. apply Forall_map, Forall_forall. intros a _.
  unfold is_byte. simpl. pose proof (nat_ascii_bounded a). lia.
Qed.

Lemma bytes_inj s t : bytes s = bytes t -> s = t.
Proof.
  unfold bytes. intros H.
  rewrite <- (string_of_list_ascii_of_string s),
          <- (string_of_list_ascii_of_string t).
  f_equal. revert H.
  generalize (list_ascii_of_string s) (list_ascii_of_string t).
  induction l as [|a l IH]; intros [|b l'] H; simpl in H;
    try discriminate; [reflexivity|].
  injection H as Hab Hl. f_equal; [|by apply IH].
  apply Nat2Z.inj in Hab.
  rewrite <- (ascii_nat_embedding a), <- (ascii_nat_embedding b).
  by rewrite Hab.
Qed.

End GoFacts.

(** ** The chain executor *)

Module ChainFacts.
Import GoInt Http Yee GoFacts.

(** *** Traces *)

Definition is_failure (ev : event) : bool :=
  match ev with
  | Returned _ (Some _) => true
  | _ => false
  end.

Definition no_failure (tr : list event) : bool :=
  forallb (fun ev => negb (is_failure ev)) tr.

(** After the first failing return the trace holds no [Invoke]. *)
Fixpoint quiet_after_failure (tr : list event) : bool :=
  match tr with
  | [] => true
  | ev :: t =>
      if is_failure ev then
        match invoked t with [] => true | _ => false end
      else quiet_after_failure t
  end.

Lemma invoked_app tr1 tr2 : invoked (tr1 ++ tr2) = (invoked tr1 ++ invoked tr2)%list.
Proof.
  induction tr1 as [|[i|i e] t IH]; simpl; [reflexivity| |assumption].
  by rewrite IH.
Qed.

Lemma no_failure_snoc tr ev :
  no_failure tr = true -> is_failure ev = false -> no_failure (tr ++ [ev]) = true.
Proof.
  unfold no_failure. intros H1 H2. rewrite forallb_app, H1. simpl. by rewrite H2.
Qed.

Lemma no_failure_quiet tr : no_failure tr = true -> quiet_after_failure tr = true.
Proof.
  induction tr as [|ev t IH]; simpl; [reflexivity|].
  intros [H1 H2]%andb_true_iff. apply negb_true_iff in H1. rewrite H1. by apply IH.
Qed.

Lemma quiet_snoc_return tr i e :
  quiet_after_failure tr = true -> quiet_after_failure (tr ++ [Returned i e]) = true.
Proof.
  induction tr as [|ev t IH]; simpl.
  - intros _. by destruct e.
  - destruct (is_failure ev); [|assumption].
    rewrite invoked_app. simpl. by rewrite app_nil_r.
Qed.

Lemma quiet_snoc_invoke tr i :
  no_failure tr = true -> quiet_after_failure (tr ++ [Invoke i]) = true.
Proof.
  intros H. apply no_failure_quiet, no_failure_snoc; [assumption | reflexivity].
Qed.

Lemma quiet_split pre k e post :
  quiet_after_failure (pre ++ Returned k (Some e) :: post) = true ->
  invoked post = [].
Proof.
  induction pre as [|ev t IH]; simpl.
  - by destruct (invoked post).
  - destruct (is_failure ev); [|assumption].
    rewrite invoked_app. simpl.
    destruct (invoked t); simpl; [|discriminate].
    by destruct (invoked post).
Qed.

Lemma no_failure_split pre k e post :
  no_failure (pre ++ Returned k (Some e) :: post) = false.
Proof.
  unfold no_failure. rewrite forallb_app. simpl. apply andb_false_r.
Qed.

(** The indices [0, 1, ..., m-1]. *)
Definition upto (m : nat) : list Z := map Z.of_nat (seq 0 m).

Lemma upto_S m : upto (S m) = (upto m ++ [Z.of_nat m])%list.
Proof. unfold upto. by rewrite seq_S, map_app. Qed.

Lemma seq_sorted a m : StronglySorted Z.lt (map Z.of_nat (seq a m)).
Proof.
  revert a. induction m as [|m IH]; intros a; simpl; constructor.
  - apply IH.
  - apply Forall_map, Forall_forall. intros x Hx%elem_of_seq. simpl. lia.
Qed.

Lemma upto_sorted m : StronglySorted Z.lt (upto m).
Proof. apply seq_sorted. Qed.

Lemma upto_NoDup m : List.NoDup (upto m).
Proof.
  unfold upto. apply Finite.Injective_map_NoDup; [|apply seq_NoDup].
  intros x y. apply Nat2Z.inj.
Qed.

Lemma upto_bounds m i : In i (upto m) -> 0 <= i < Z.of_nat m.
Proof. unfold upto. intros (n & <- & Hn%in_seq)%in_map_iff. lia. Qed.

(** *** The invariant of the cursor *)

Section Invariant.

Variable hs : list HandlerFunc.

Let s : Z := Z.of_nat (List.length hs).

(** What holds of the trace at every point of every run, also where the run
    panics: the handlers entered are those at [0], [1], ..., [m-1] and in
    that order, nothing is entered after a failing return, and a failing
    return leaves [intercept] set. *)
Definition trace_ok (c : context) : Prop :=
  handlers c = hs /\
  MinInt64 <= index c <= MaxInt64 /\
  (exists m : nat, (m <= List.length hs)%nat /\ invoked (trace c) = upto m) /\
  quiet_after_failure (trace c) = true /\
  (intercept c = false -> no_failure (trace c) = true).

(** While a handler body runs (and before and after any call of [Next]):
    unless the chain is halted, the handlers entered are exactly those up to
    the cursor. *)
Definition inv_body (c : context) : Prop :=
  trace_ok c /\
  (intercept c = false ->
   -1 <= index c /\
   invoked (trace c) = upto (Z.to_nat (Z.min (index c + 1) s))).

(** At the head of the loop, after [c.index++]. *)
Definition inv_head (c : context) : Prop :=
  trace_ok c /\
  (intercept c = false ->
   index c < 0 \/
   invoked (trace c) = upto (Z.to_nat (Z.min (index c) s))).

(** The iterations the loop has left. *)
Definition remaining (c : context) : nat :=
  if intercept c || (index c <? 0) then 0%nat else Z.to_nat (s - index c).

Definition post {A} (P Q : context -> Prop) (o : outcome A) : Prop :=
  match o with
  | Ok _ c => P c
  | Panicked c => Q c
  | OutOfFuel => False
  end.

Lemma post_impl {A} (P P' Q : context -> Prop) (o : outcome A) :
  (forall c, P c -> P' c) -> post P Q o -> post P' Q o.
Proof. destruct o; simpl; auto. Qed.

(** A handler body keeps whatever [Next] and the interface methods keep. *)
Lemma exec_post (P Q : context -> Prop) next :
  (forall c, P c -> post P Q (next c)) ->
  (forall c e, P c -> P (with_pub c e)) ->
  (forall c, P c -> Q c) ->
  forall p c, P c -> post P Q (exec next p c).
Proof.
  intros Hnext Hpub HPQ. induction p as [err| |k IH|A m k IH]; intros c Hc; simpl.
  - assumption.
  - by apply HPQ.
  - specialize (Hnext c Hc). destruct (next c) as [[] c'|c'|]; simpl in *; auto.
  - destruct (m (pub c)) as [a e']. apply IH, Hpub, Hc.
Qed.


Lemma trace_ok_with_pub c e : trace_ok c -> trace_ok (with_pub c e).
Proof. intros H. exact H. Qed.

Lemma inv_body_with_pub c e : inv_body c -> inv_body (with_pub c e).
Proof. intros H. exact H. Qed.

Lemma trace_ok_incr c : trace_ok c -> trace_ok (incr c).
Proof.
  intros (Hh & _ & Hm & Hq & Hn). unfold trace_ok. split_and!; try assumption;
    apply wrap64_range.
Qed.

Lemma inv_body_incr c : inv_body c -> inv_head (incr c).
Proof.
  intros [Hok Hc]. split; [by apply trace_ok_incr|].
  simpl. intros Hi. destruct (Hc Hi) as [Hlo Htr].
  destruct Hok as (_ & [_ Hhi] & _).
  destruct (wrap64_succ (index c)) as [->|Hneg]; [lia | | by left].
  by right.
Qed.

(** Entering the handler at the cursor. *)
Lemma inv_body_invoke c :
  inv_head c -> intercept c = false -> 0 <= index c < s ->
  inv_body (record (Invoke (index c)) c).
Proof.
  intros [(Hh & Hr & _ & Hq & Hn) Hc] Hi Hk.
  destruct (Hc Hi) as [Hneg|Htr]; [lia|].
  rewrite Z.min_l in Htr by lia.
  assert (Htr' : invoked (trace (record (Invoke (index c)) c))
                 = upto (S (Z.to_nat (index c)))).
  { simpl. rewrite invoked_app, Htr, upto_S. simpl. by rewrite Z2Nat.id by lia. }
  unfold inv_body, trace_ok. split_and!; try (assumption || apply Hr).
  - exists (S (Z.to_nat (index c))). split; [unfold s in Hk; lia | exact Htr'].
  - simpl. apply quiet_snoc_invoke. by apply Hn.
  - intros _. simpl. apply no_failure_snoc; [by apply Hn | reflexivity].
  - intros _. split; [simpl; lia|]. rewrite Htr'. f_equal.
    simpl. rewrite Z.min_l by lia. lia.
Qed.

(** The handler at index [k] has returned [err]. *)
Definition returned (k : Z) (err : error) (c : context) : context :=
  match err with
  | Some _ => with_intercept (record (Returned k err) c) true
  | None => record (Returned k err) c
  end.

Lemma inv_body_returned k err c : inv_body c -> inv_body (returned k err c).
Proof.
  intros [(Hh & Hr & Hm & Hq & Hn) Hc].
  assert (Hinv : invoked (trace c ++ [Returned k err]) = invoked (trace c)).
  { rewrite invoked_app. simpl. apply app_nil_r. }
  destruct err as [e|]; unfold inv_body, trace_ok; simpl;
    split_and!; try (assumption || apply Hr || discriminate).
  - by rewrite Hinv.
  - by apply quiet_snoc_return.
  - by rewrite Hinv.
  - by apply quiet_snoc_return.
  - intros Hi. apply no_failure_snoc; [by apply Hn | reflexivity].
  - intros Hi. rewrite Hinv. by apply Hc.
Qed.

Lemma returned_index k err c : index (returned k err c) = index c.
Proof. by destruct err. Qed.

Lemma returned_intercept k err c :
  intercept (returned k err c) = false -> intercept c = false.
Proof. by destruct err. Qed.

(** The cursor after the increment, from a state in which it was at least
    [k]: either the chain is halted, or the cursor wrapped, or it is beyond
    [k]. *)
Lemma remaining_incr c k n :
  trace_ok c -> 0 <= k < s -> (Z.to_nat (s - k) < S n)%nat ->
  (intercept c = false -> k <= index c) ->
  (remaining (incr c) < n)%nat.
Proof.
  intros (_ & [_ Hhi] & _) Hk Hn Hc. unfold remaining. simpl.
  destruct (intercept c); simpl; [lia|].
  specialize (Hc eq_refl).
  destruct (wrap64_succ (index c)) as [->|Hneg]; [lia| |].
  - destruct (Z.ltb_spec (index c + 1) 0); lia.
  - destruct (Z.ltb_spec (wrap64 (index c + 1)) 0); lia.
Qed.

(** The specification of the loop: with fuel for the iterations left it
    ends, by a return or a panic; the invariant holds where it ends; and
    unless the chain is halted the cursor has not moved back. *)
Lemma loop_spec n : forall c,
  inv_head c -> (remaining c < n)%nat ->
  post (fun c' => inv_body c' /\
                  (intercept c' = false ->
                   intercept c = false /\ 0 <= index c <= index c'))
       trace_ok (loop n s c).
Proof.
  induction n as [|n IH]; intros c Hhead Hrem; [lia|].
  simpl. destruct (Z.ltb_spec (index c) s) as [Hlt|Hge].
  2:{ simpl. split.
      - destruct Hhead as [Hok Hc]. split; [assumption|].
        intros Hi. split; [unfold s in Hge; lia|].
        destruct (Hc Hi) as [Hneg|Htr]; [unfold s in Hge; lia|].
        rewrite Htr. f_equal. lia.
      - intros Hi. split; [assumption|]. unfold s in Hge. lia. }
  destruct (intercept c) eqn:Hi.
  { simpl. split; [split; [apply Hhead | by rewrite Hi] | intros Hi2; congruence]. }
  unfold handler_at. destruct (Z.ltb_spec (index c) 0) as [Hneg|Hpos].
  { simpl. apply Hhead. }
  assert (Hhs : handlers c = hs) by apply Hhead.
  destruct (lookup_lt_is_Some_2 (handlers c) (Z.to_nat (index c))) as [h Hh].
  { rewrite Hhs. unfold s in Hlt. lia. }
  rewrite Hh.
  assert (Hfuel : (Z.to_nat (s - index c) < S n)%nat).
  { unfold remaining in Hrem. rewrite Hi in Hrem. simpl in Hrem.
    destruct (Z.ltb_spec (index c) 0); [lia | assumption]. }
  set (G := fun c' => inv_body c' /\ (intercept c' = false -> index c <= index c')).
  assert (Hnext : forall c', G c' ->
            post G trace_ok
              (loop n (Z.of_nat (List.length (handlers c'))) (incr c'))).
  { intros c' [Hb Hk].
    assert (Hhs' : handlers c' = hs) by apply Hb. rewrite Hhs'. fold s.
    eapply post_impl; [|apply IH; [by apply inv_body_incr|]].
    - intros c2 [Hb2 Hm]. split; [assumption|]. intros Hi2.
      destruct (Hm Hi2) as (Hi1 & H0 & Hle). simpl in Hi1, H0, Hle.
      specialize (Hk Hi1).
      destruct Hb as [(_ & [_ Hhi] & _) _].
      destruct (wrap64_succ (index c')) as [E|E]; [lia| |lia].
      rewrite E in Hle. lia.
    - apply remaining_incr with (k := index c); [apply Hb|lia|assumption|assumption]. }
  pose proof (exec_post G trace_ok _ Hnext) as Hexec.
  specialize (Hexec ltac:(by intros ? ? ?) ltac:(by intros ? [[? ?] ?])).
  specialize (Hexec (Func h) (record (Invoke (index c)) c)).
  destruct (exec _ (Func h) (record (Invoke (index c)) c)) as [err c'|c'|];
    simpl in Hexec.
  - assert (HG : G c').
    { apply Hexec. split; [apply inv_body_invoke; [assumption..|lia]|].
      intros _. simpl. lia. }
    clear Hexec. destruct HG as [Hb Hk].
    fold (returned (index c) err c').
    eapply post_impl; [|apply IH; [apply inv_body_incr, inv_body_returned, Hb|]].
    + intros c2 [Hb2 Hm]. split; [assumption|]. intros Hi2.
      destruct (Hm Hi2) as (Hi1 & H0 & Hle). simpl in Hi1, H0, Hle.
      rewrite returned_index in H0, Hle.
      apply returned_intercept in Hi1. specialize (Hk Hi1).
      destruct Hb as [(_ & [_ Hhi] & _) _].
      split; [reflexivity|].
      destruct (wrap64_succ (index c')) as [E|E]; [lia| |lia].
      rewrite E in Hle. lia.
    + apply remaining_incr with (k := index c).
      * apply inv_body_returned, Hb.
      * lia.
      * assumption.
      * intros Hi1. rewrite returned_index.
        apply returned_intercept in Hi1. by apply Hk.
  - apply Hexec. split; [apply inv_body_invoke; [assumption..|lia]|].
    intros _. simpl. lia.
  - apply Hexec. split; [apply inv_body_invoke; [assumption..|lia]|].
    intros _. simpl. lia.
Qed.

(** [Next] always has the fuel it needs. *)
Lemma Next_spec c : inv_body c -> post inv_body trace_ok (Next c).
Proof.
  intros Hb. unfold Next, Next_fuel.
  assert (Hhs : handlers c = hs) by apply Hb. rewrite Hhs. fold s.
  eapply post_impl; [|apply loop_spec; [by apply inv_body_incr|]].
  - by intros c' [H _].
  - unfold remaining.
    destruct (intercept (incr c) || (index (incr c) <? 0)) eqn:E; [lia|].
    apply orb_false_iff in E as [_ E]. apply Z.ltb_ge in E. unfold s. lia.
Qed.

Lemma inv_body_newContext e : inv_body (with_handlers (newContext e) hs).
Proof.
  unfold inv_body, trace_ok. simpl. split_and!; try done.
  - exists 0%nat. split; [lia | reflexivity].
  - intros _. split; [lia|]. rewrite Z.min_l by (unfold s; lia). reflexivity.
Qed.

(** Every run of a context ends, and the invariant holds where it ends. *)
Lemma serve_spec driver e : post inv_body trace_ok (serve hs driver e).
Proof.
  unfold serve. apply exec_post.
  - apply Next_spec.
  - by intros ? ? ?.
  - by intros ? [? ?].
  - apply inv_body_newContext.
Qed.

Lemma serve_final driver e :
  exists c, final (serve hs driver e) = Some c /\ trace_ok c.
Proof.
  pose proof (serve_spec driver e) as H.
  destruct (serve hs driver e) as [err c|c|]; simpl in *;
    [exists c | exists c | contradiction]; split; try reflexivity; try assumption.
  apply H.
Qed.

End Invariant.

(** *** The cursor is monotonic *)

(** C1. Whatever the handlers are and however often [Next] is called on a
    context, by the router or by the handlers themselves, the run ends
    (fuel never runs out), and the handlers entered over the whole life of
    the context are those at the indices [0], [1], ..., [m-1] for some
    [m] not above the number of handlers, entered in exactly that order: no
    index is entered twice, and the order of entry is the order of the list. *)
Theorem Next_enters_each_handler_at_most_once_in_list_order :
  forall (hs : list HandlerFunc) (driver : prog) (e : world),
  exists c : context,
    final (serve hs driver e) = Some c /\
    (exists m : nat, (m <= List.length hs)%nat /\ invoked (trace c) = upto m) /\
    List.NoDup (invoked (trace c)) /\
    StronglySorted Z.lt (invoked (trace c)).
Proof.
  intros hs driver e.
  destruct (serve_final hs driver e) as (c & Hc & _ & _ & (m & Hm & Htr) & _).
  exists c. split; [assumption|]. split; [by exists m|].
  rewrite Htr. split; [apply upto_NoDup | apply upto_sorted].
Qed.

(** *** A failing handler halts the chain *)

(** What the loop of [Next] does once the handler it has entered at the
    cursor returns an error. *)
Lemma loop_halts_on_error n c h msg c' :
  (0 < n)%nat ->
  index c < Z.of_nat (List.length (handlers c)) ->
  intercept c = false ->
  handler_at c = Some h ->
  exec (fun c0 => loop n (Z.of_nat (List.length (handlers c0))) (incr c0))
       (Func h) (record (Invoke (index c)) c) = Ok (Some msg) c' ->
  loop (S n) (Z.of_nat (List.length (handlers c))) c
  = Ok tt (incr (with_intercept (record (Returned (index c) (Some msg)) c') true)).
Proof.
  intros Hn Hlt Hi Hh Hexec. simpl.
  apply Z.ltb_lt in Hlt. rewrite Hlt, Hi, Hh, Hexec.
  destruct n as [|n]; [lia|]. simpl.
  match goal with |- (if ?b then _ else _) = _ => destruct b end; reflexivity.
Qed.

(** C2. In two parts.  (1) Over the whole life of a context: if the handler
    at index [k] has returned a non-nil error, then [intercept] is set and
    no handler at all, so none at an index above [k], is entered after that
    return.  (2) In the execution of [Next] that entered the handler: when
    the handler returns the error, this execution returns normally (the
    error does not travel as a panic), with [intercept] set, the cursor one
    step on, and nothing entered after the failing return. *)
Theorem handler_error_halts_the_chain :
  (forall (hs : list HandlerFunc) (driver : prog) (e : world) (c : context),
     final (serve hs driver e) = Some c ->
     forall pre k msg post,
       trace c = (pre ++ Returned k (Some msg) :: post)%list ->
       intercept c = true /\ invoked post = []) /\
  (forall (n : nat) (c : context) (h : HandlerFunc) (msg : string) (c' : context),
     (0 < n)%nat ->
     index c < Z.of_nat (List.length (handlers c)) ->
     intercept c = false ->
     handler_at c = Some h ->
     exec (fun c0 => loop n (Z.of_nat (List.length (handlers c0))) (incr c0))
          (Func h) (record (Invoke (index c)) c) = Ok (Some msg) c' ->
     exists cf,
       loop (S n) (Z.of_nat (List.length (handlers c))) c = Ok tt cf /\
       intercept cf = true /\
       trace cf = (trace c' ++ [Returned (index c) (Some msg)])%list).
Proof.
  split.
  - intros hs driver e c Hc pre k msg post Htr.
    destruct (serve_final hs driver e) as (c0 & Hc0 & _ & _ & _ & Hq & Hn).
    assert (c0 = c) as -> by congruence.
    rewrite Htr in Hq, Hn. split.
    + destruct (intercept c); [reflexivity|].
      specialize (Hn eq_refl). by rewrite no_failure_split in Hn.
    + by apply quiet_split in Hq.
  - intros n c h msg c' Hn Hlt Hi Hh Hexec.
    eexists. split; [by apply loop_halts_on_error with (h := h)|].
    split; reflexivity.
Qed.

(** A chain whose second handler fails under a wrapping middleware, and the
    head of the loop over a chain of one failing handler. *)
Definition failing_chain : list HandlerFunc :=
  [Samples.wrapper; Samples.failing; Samples.terminal].
Definition failing_head : context :=
  incr (with_handlers (newContext Samples.get_world) [Samples.failing]).

Lemma handler_error_halts_the_chain_witness :
  (exists c,
     final (serve failing_chain Samples.once Samples.get_world) = Some c /\
     trace c = [Invoke 0; Invoke 1; Returned 1 (Some "boom"); Returned 0 None] /\
     intercept c = true /\ invoked [Returned 0 None] = []) /\
  (exists cf,
     loop 2 1 failing_head = Ok tt cf /\ intercept cf = true /\
     trace cf = [Invoke 0; Returned 0 (Some "boom")]).
Proof.
  split.
  - eexists. split; [vm_compute; reflexivity|]. split; [reflexivity|].
    eapply (proj1 handler_error_halts_the_chain failing_chain Samples.once
              Samples.get_world _ _ [Invoke 0; Invoke 1] 1 "boom" [Returned 0 None]).
    reflexivity.
  - exact (proj2 handler_error_halts_the_chain 1%nat failing_head Samples.failing
             "boom" (record (Invoke 0) failing_head)
             ltac:(lia) ltac:(reflexivity) eq_refl eq_refl eq_refl).
  Unshelve. vm_compute. reflexivity.
Defined.

End ChainFacts.

(** ** [Redirect] and [Scheme] *)

Module ContextFacts.
Import Http Yee Samples.

Lemma Redirect_out_of_range code uri e :
  code < 300 \/ 308 < code ->
  Redirect code uri e = (Returns ErrInvalidRedirectCode, e).
Proof.
  intros H. unfold Redirect.
  destruct (Z.ltb_spec code 300), (Z.gtb_spec code 308); simpl; try reflexivity; lia.
Qed.

Lemma Redirect_response_header code uri e :
  wHeader (w (snd (Redirect code uri e))) = wHeader (w e).
Proof.
  unfold Redirect. destruct ((code <? 300) || (code >? 308)); [reflexivity|].
  unfold WriteHeader. cbn [w with_w with_r].
  destruct (wroteHeader (w e)); [reflexivity|].
  destruct (negb (valid_code code)); [reflexivity|].
  by destruct (informational code).
Qed.

(** C3. [Redirect(301, "/x")] on a context that has written nothing returns
    nil and commits status 301, but the header map of the response has no
    Location: the value is stored in the header map of the request.  In
    general [Redirect] never changes the header map of the response.  (A
    code outside [300, 308] gives [ErrInvalidRedirectCode] and changes
    nothing, as claimed.) *)
Theorem Redirect_sets_Location_on_the_request_not_the_response :
  (forall code uri e, wHeader (w (snd (Redirect code uri e))) = wHeader (w e)) /\
  (let '(err, e') := Redirect 301 "/x" get_world in
   err = Returns None /\
   wroteHeader (w e') = true /\ wStatus (w e') = 301 /\
   Header_Get (wHeader (w e')) "Location" = EmptyString /\
   Header_Get (Header (r e')) "Location" = "/x") /\
  Redirect 200 "/x" get_world = (Returns ErrInvalidRedirectCode, get_world).
Proof.
  split; [apply Redirect_response_header|].
  split; [|reflexivity].
  vm_compute. repeat split.
Qed.

(** The scheme as the design document words it: the first of the four
    forwarding headers, in their fixed order, that applies; "http" when none
    does. *)
Definition non_empty (v : string) : option string :=
  if String.eqb v EmptyString then None else Some v.

Definition scheme_candidates (h : Values) : list (option string) :=
  [ non_empty (Header_Get h HeaderXForwardedProto);
    non_empty (Header_Get h HeaderXForwardedProtocol);
    (if String.eqb (Header_Get h HeaderXForwardedSsl) "on" then Some "https" else None);
    non_empty (Header_Get h HeaderXUrlScheme) ].

Fixpoint first_some {A} (l : list (option A)) : option A :=
  match l with
  | [] => None
  | Some a :: _ => Some a
  | None :: t => first_some t
  end.

Definition scheme_by_priority (h : Values) : string :=
  default "http" (first_some (scheme_candidates h)).

Lemma Scheme_refines e : Scheme e = scheme_by_priority (Header (r e)).
Proof.
  unfold Scheme, scheme_by_priority, scheme_candidates, non_empty. simpl.
  repeat (match goal with |- context [String.eqb ?a ?b] => destruct (String.eqb a b) end;
          simpl; try reflexivity).
Qed.

(** C9. [Scheme] is the first applicable forwarding header in the order
    X-Forwarded-Proto, X-Forwarded-Protocol, X-Forwarded-Ssl (being "on",
    giving "https"), X-Url-Scheme, and "http" when none applies.  So a
    non-empty X-Forwarded-Proto decides whatever the other headers say; with
    the first two absent, X-Forwarded-Ssl: on gives "https"; with none of the
    four, the scheme is "http". *)
Theorem Scheme_priority_order :
  forall e : world,
    let h := Header (r e) in
    Scheme e = scheme_by_priority h /\
    (Header_Get h HeaderXForwardedProto <> EmptyString ->
     Scheme e = Header_Get h HeaderXForwardedProto) /\
    (Header_Get h HeaderXForwardedProto = EmptyString ->
     Header_Get h HeaderXForwardedProtocol <> EmptyString ->
     Scheme e = Header_Get h HeaderXForwardedProtocol) /\
    (Header_Get h HeaderXForwardedProto = EmptyString ->
     Header_Get h HeaderXForwardedProtocol = EmptyString ->
     Header_Get h HeaderXForwardedSsl = "on" ->
     Scheme e = "https") /\
    (Header_Get h HeaderXForwardedProto = EmptyString ->
     Header_Get h HeaderXForwardedProtocol = EmptyString ->
     Header_Get h HeaderXForwardedSsl <> "on" ->
     Header_Get h HeaderXUrlScheme <> EmptyString ->
     Scheme e = Header_Get h HeaderXUrlScheme) /\
    (Header_Get h HeaderXForwardedProto = EmptyString ->
     Header_Get h HeaderXForwardedProtocol = EmptyString ->
     Header_Get h HeaderXForwardedSsl <> "on" ->
     Header_Get h HeaderXUrlScheme = EmptyString ->
     Scheme e = "http").
Proof.
  intros e h. split; [apply Scheme_refines|].
  unfold Scheme. fold h. simpl.
  split_and!.
  - intros H%String.eqb_neq. by rewrite H.
  - intros -> H%String.eqb_neq. simpl. by rewrite H.
  - intros -> -> ->. reflexivity.
  - intros -> -> H1%String.eqb_neq H2%String.eqb_neq. simpl. by rewrite H1, H2.
  - intros -> -> H1%String.eqb_neq ->. simpl. by rewrite H1.
Qed.

(** The three requests of the design document: both X-Forwarded-Proto: https
    and X-Forwarded-Ssl: on; only X-Forwarded-Ssl: on; no forwarding
    header. *)
Definition both_headers : world :=
  world_of (request MethodGet
              (Header_Set (Header_Set ∅ "X-Forwarded-Ssl" "on")
                          "X-Forwarded-Proto" "https") []) zeros.
Definition ssl_only : world :=
  world_of (request MethodGet (Header_Set ∅ "X-Forwarded-Ssl" "on") []) zeros.

Lemma Scheme_priority_order_witness :
  (Header_Get (Header (r both_headers)) HeaderXForwardedSsl = "on" /\
   Scheme both_headers = Header_Get (Header (r both_headers)) HeaderXForwardedProto /\
   Header_Get (Header (r both_headers)) HeaderXForwardedProto = "https") /\
  Scheme ssl_only = "https" /\
  Scheme get_world = "http".
Proof.
  split; [split; [reflexivity | split; [|reflexivity]]|split].
  - apply (proj1 (proj2 (Scheme_priority_order both_headers))).
    vm_compute. discriminate.
  - apply (proj1 (proj2 (proj2 (proj2 (Scheme_priority_order ssl_only)))));
      reflexivity.
  - apply (proj2 (proj2 (proj2 (proj2 (proj2 (Scheme_priority_order get_world))))));
      try reflexivity.
    vm_compute. discriminate.
Defined.

End ContextFacts.

(** ** The response writer and the response helpers *)

Module WriterFacts.
Import Http Yee.

Lemma Header_Get_Set h key key' value :
  Header_Get (Header_Set h key value) key' =
  if decide (CanonicalMIMEHeaderKey key = CanonicalMIMEHeaderKey key')
  then value else Header_Get h key'.
Proof.
  unfold Header_Get, Header_Set. rewrite lookup_insert.
  by destruct (decide (CanonicalMIMEHeaderKey key = CanonicalMIMEHeaderKey key')).
Qed.

Lemma append_empty_r x : String.append x EmptyString = x.
Proof.
  induction x as [|a x IH]; [reflexivity|].
  change (String.append (String a x) EmptyString)
    with (String a (String.append x EmptyString)).
  by rewrite IH.
Qed.

(** [WriteHeader] panics exactly on a code that is not of three digits while
    no status is committed. *)
Lemma WriteHeader_panics wr code :
  WriteHeader wr code = Panics <-> wroteHeader wr = false /\ valid_code code = false.
Proof.
  unfold WriteHeader.
  destruct (wroteHeader wr), (valid_code code), (informational code); cbn [negb];
    split; try discriminate; try (intros [? ?]; discriminate); by intros _.
Qed.

Lemma WriteHeader_valid wr code :
  valid_code code = true -> exists wr', WriteHeader wr code = Returns wr'.
Proof.
  intros Hv. unfold WriteHeader. rewrite Hv. cbn [negb].
  destruct (wroteHeader wr), (informational code); by eexists.
Qed.

(** Whatever it does, [WriteHeader] leaves the header map, the cookies, the
    body and the connection alone. *)
Lemma WriteHeader_frame wr code wr' :
  WriteHeader wr code = Returns wr' ->
  wHeader wr' = wHeader wr /\ SetCookies wr' = SetCookies wr /\
  wBody wr' = wBody wr /\ wFault wr' = wFault wr.
Proof.
  unfold WriteHeader.
  destruct (wroteHeader wr); [by intros [= <-]|].
  destruct (negb (valid_code code)); [discriminate|].
  destruct (informational code); by intros [= <-].
Qed.

Lemma Write_frame wr b :
  wHeader (snd (Write wr b)) = wHeader wr /\
  SetCookies (snd (Write wr b)) = SetCookies wr /\
  wFault (snd (Write wr b)) = wFault wr /\
  wroteHeader (snd (Write wr b)) = true.
Proof.
  unfold Write.
  set (w1 := if wroteHeader wr then wr else commit wr 200).
  assert (H1 : wHeader w1 = wHeader wr /\ SetCookies w1 = SetCookies wr /\
               wFault w1 = wFault wr /\ wroteHeader w1 = true).
  { subst w1. by destruct (wroteHeader wr) eqn:Hw. }
  destruct H1 as (H1 & H2 & H3 & H4).
  destruct (String.eqb b EmptyString); [done|].
  destruct (negb (bodyAllowedForStatus (wStatus w1))); [done|].
  destruct (wFault w1) eqn:Hf; cbn [fst snd wHeader SetCookies wFault wroteHeader];
    rewrite ?Hf; by split_and!.
Qed.

(** [Write] once a status is committed. *)
Lemma Write_committed wr b :
  wroteHeader wr = true ->
  wStatus (snd (Write wr b)) = wStatus wr /\
  (bodyAllowedForStatus (wStatus wr) = true -> wFault wr = None ->
   fst (Write wr b) = None /\
   wBody (snd (Write wr b)) = String.append (wBody wr) b) /\
  (bodyAllowedForStatus (wStatus wr) = false -> b <> EmptyString ->
   fst (Write wr b) = Some ErrBodyNotAllowed /\
   wBody (snd (Write wr b)) = wBody wr).
Proof.
  intros Hdone. unfold Write. rewrite Hdone.
  destruct (String.eqb_spec b EmptyString) as [->|Hb].
  - cbn [fst snd]. split_and!; [reflexivity | | by intros _ ?].
    intros _ _. by rewrite append_empty_r.
  - destruct (bodyAllowedForStatus (wStatus wr)); cbn [negb].
    + destruct (wFault wr); cbn [fst snd wStatus wBody];
        split_and!; try reflexivity; try discriminate; by intros _ _.
    + cbn [fst snd]. split_and!; [reflexivity | discriminate | by intros _ _].
Qed.

(** The writer after [writeContentType]: only the header map can differ. *)
Lemma writeContentType_writer value e :
  wroteHeader (w (snd (writeContentType value e))) = wroteHeader (w e) /\
  wStatus (w (snd (writeContentType value e))) = wStatus (w e) /\
  wBody (w (snd (writeContentType value e))) = wBody (w e) /\
  wFault (w (snd (writeContentType value e))) = wFault (w e).
Proof. unfold writeContentType. by destruct (String.eqb _ EmptyString). Qed.

Lemma Blob_unfold code contentType b e :
  Blob code contentType b e =
  let e1 := snd (writeContentType contentType e) in
  match WriteHeader (w e1) code with
  | Panics => (Panics, e1)
  | Returns w2 => (Returns (fst (Write w2 b)), with_w e1 (snd (Write w2 b)))
  end.
Proof.
  unfold Blob. destruct (writeContentType contentType e) as [[] e1]. cbn [snd].
  destruct (WriteHeader (w e1) code) as [w2|]; [|reflexivity].
  by destruct (Write w2 b).
Qed.

(** What [Blob] leaves alone, whether it returns or panics. *)
Lemma Blob_frame code contentType b e :
  SetCookies (w (snd (Blob code contentType b e))) = SetCookies (w e) /\
  store (snd (Blob code contentType b e)) = store e /\
  compared (snd (Blob code contentType b e)) = compared e /\
  r (snd (Blob code contentType b e)) = r e /\
  sink (snd (Blob code contentType b e)) = sink e /\
  wHeader (w (snd (Blob code contentType b e)))
  = wHeader (w (snd (writeContentType contentType e))).
Proof.
  unfold Blob.
  destruct (writeContentType contentType e) as [[] e1] eqn:Hct.
  assert (He1 : SetCookies (w e1) = SetCookies (w e) /\ store e1 = store e /\
                compared e1 = compared e /\ r e1 = r e /\ sink e1 = sink e).
  { unfold writeContentType in Hct.
    destruct (String.eqb _ EmptyString); injection Hct as <-; by repeat split. }
  destruct He1 as (H1 & H2 & H3 & H4 & H5). cbn [snd].
  destruct (WriteHeader (w e1) code) as [w2|] eqn:HW; cbn [snd].
  - destruct (WriteHeader_frame _ _ _ HW) as (F1 & F2 & _ & _).
    pose proof (Write_frame w2 b) as (G1 & G2 & _ & _).
    destruct (Write w2 b) as [err w3]. cbn [fst snd w with_w store compared r sink] in *.
    rewrite G1, G2, F1, F2. by split_and!.
  - by split_and!.
Qed.

Lemma Blob_panics code contentType b e :
  fst (Blob code contentType b e) = Panics
  <-> wroteHeader (w e) = false /\ valid_code code = false.
Proof.
  unfold Blob.
  destruct (writeContentType contentType e) as [[] e1] eqn:Hct.
  assert (He1 : wroteHeader (w e1) = wroteHeader (w e)).
  { unfold writeContentType in Hct.
    destruct (String.eqb _ EmptyString); by injection Hct as <-. }
  rewrite <- He1, <- WriteHeader_panics.
  destruct (WriteHeader (w e1) code) as [w2|]; [|done].
  destruct (Write w2 b) as [err w3]. cbn [fst]. split; discriminate.
Qed.

(** [Blob] on a response that has not been committed, with a code that
    commits. *)
Lemma Blob_writer code contentType b e :
  wroteHeader (w e) = false ->
  valid_code code = true -> informational code = false ->
  wroteHeader (w (snd (Blob code contentType b e))) = true /\
  wStatus (w (snd (Blob code contentType b e))) = code /\
  (bodyAllowedForStatus code = true -> wFault (w e) = None ->
   fst (Blob code contentType b e) = Returns None /\
   wBody (w (snd (Blob code contentType b e))) = String.append (wBody (w e)) b) /\
  (bodyAllowedForStatus code = false -> b <> EmptyString ->
   fst (Blob code contentType b e) = Returns (Some ErrBodyNotAllowed) /\
   wBody (w (snd (Blob code contentType b e))) = wBody (w e)).
Proof.
  intros Hfresh Hv Hi. rewrite Blob_unfold. cbv zeta.
  destruct (writeContentType_writer contentType e) as (E1 & E2 & E3 & E4).
  set (e1 := snd (writeContentType contentType e)) in *.
  unfold WriteHeader. rewrite E1, Hfresh, Hv, Hi. cbn [negb fst snd w with_w].
  destruct (Write_committed (commit (w e1) code) b eq_refl) as (S & Hok & Hno).
  cbn [wStatus wBody wFault commit] in S, Hok, Hno. rewrite E3, E4 in *.
  pose proof (Write_frame (commit (w e1) code) b) as (_ & _ & _ & Hw).
  split_and!; [exact Hw | exact S | |];
    intros A B; [destruct (Hok A B) as [-> ->] | destruct (Hno A B) as [-> ->]]; done.
Qed.



(** [MiddError] returns the error it was given unless [String] panics, and
    leaves the world [String] leaves. *)
Lemma MiddError_result code msg e :
  MiddError code msg e
  = (match fst (String_ code msg e) with
     | Panics => Panics
     | Returns _ => Returns (Some msg)
     end, snd (String_ code msg e)).
Proof. unfold MiddError. by destruct (String_ code msg e) as [[?|] ?]. Qed.

Lemma MiddError_valid code msg e :
  valid_code code = true ->
  MiddError code msg e = (Returns (Some msg), snd (String_ code msg e)).
Proof.
  intros Hv. rewrite MiddError_result.
  destruct (fst (String_ code msg e)) eqn:E; [reflexivity|].
  apply Blob_panics in E. destruct E; congruence.
Qed.

(** A response helper that returns has committed the response. *)
Lemma Blob_commits code contentType b e :
  valid_code code = true ->
  wroteHeader (w (snd (Blob code contentType b e))) = true.
Proof.
  intros Hv. rewrite Blob_unfold. cbv zeta.
  destruct (WriteHeader_valid (w (snd (writeContentType contentType e))) code Hv)
    as [wr' ->].
  cbn [snd w with_w]. apply Write_frame.
Qed.

End WriterFacts.

(** ** The access logger *)

Module LoggerFacts.
Import Http Yee FastTemplate Middleware Logger Samples.

(** What a handler that wraps the chain does after [Next] has returned. *)
Definition after_next {A} (next : context -> outcome unit) (c : context)
    (k : context -> outcome A) : outcome A :=
  match next c with
  | Ok _ c' => k c'
  | Panicked c' => Panicked c'
  | OutOfFuel => OutOfFuel
  end.

Lemma V1_handler_run t next c :
  exec next (V1.logger_handler t) c =
  after_next next c (fun c' =>
    Ok None (with_pub c' (snd (emit (V1.severity_of (Response_Status (pub c')))
                                    (fst (V1.render t (pub c'))) (pub c'))))).
Proof.
  unfold V1.logger_handler, after_next. simpl.
  destruct (next c) as [[] c'|c'|]; try reflexivity.
  unfold V1.severity_of, Response_Status.
  by destruct (wStatus (w (pub c')) <? 400).
Qed.

Lemma V2_handler_run t next c :
  exec next (V2.logger_handler (Some t)) c =
  after_next next c (fun c' =>
    Ok None (with_pub c' (snd (emit (V2.severity_of (Response_Status (pub c')))
                                    (fst (V2.render t (pub c'))) (pub c'))))).
Proof.
  unfold V2.logger_handler, after_next. simpl.
  destruct (next c) as [[] c'|c'|]; try reflexivity.
  unfold V2.severity_of, Response_Status.
  by destruct (wStatus (w (pub c')) =? 200).
Qed.

(** C7. Both variants call [Next] first and then hand exactly one line, the
    rendered template, to the backend, at a severity that depends on the
    final status only.  With the threshold: Info below 400, Warn from 400
    on.  In the other variant: Trace at exactly 200, Warn at every other
    status.  In both, status 200 gets the lowest severity the variant uses,
    and 404 and 500 get Warn. *)
Theorem logger_severity_by_status :
  (forall t next c,
     exec next (V1.logger_handler t) c =
     after_next next c (fun c' =>
       Ok None (with_pub c'
         (with_sink (pub c')
            (sink (pub c') ++
             [(V1.severity_of (wStatus (w (pub c'))),
               ExecuteFuncString t (V1.tag_value (pub c')))])%list)))) /\
  (forall t next c,
     exec next (V2.logger_handler (Some t)) c =
     after_next next c (fun c' =>
       Ok None (with_pub c'
         (with_sink (pub c')
            (sink (pub c') ++
             [(V2.severity_of (wStatus (w (pub c'))),
               ExecuteFuncString t (V2.tag_value (pub c')))])%list)))) /\
  (forall status : Z,
     V1.severity_of status = (if Z_lt_dec status 400 then Info else Warn) /\
     V2.severity_of status = (if Z.eq_dec status 200 then Trace else Warn) /\
     (severity_rank (V1.severity_of 200) <= severity_rank (V1.severity_of status))%nat /\
     (severity_rank (V2.severity_of 200) <= severity_rank (V2.severity_of status))%nat) /\
  V1.severity_of 200 = Info /\ V2.severity_of 200 = Trace /\
  V1.severity_of 404 = Warn /\ V2.severity_of 404 = Warn /\
  V1.severity_of 500 = Warn /\ V2.severity_of 500 = Warn.
Proof.
  split; [intros; apply V1_handler_run|].
  split; [intros; apply V2_handler_run|].
  split; [|by repeat split].
  intros status. unfold V1.severity_of, V2.severity_of.
  destruct (Z_lt_dec status 400), (Z.ltb_spec status 400); try lia;
  destruct (Z.eq_dec status 200), (Z.eqb_spec status 200); try lia;
    repeat split; simpl; lia.
Qed.

(** A format with a start tag that is never closed. *)
Definition broken : LoggerConfig := mkLoggerConfig "${url" 0 false.

Lemma V1_fatal_on_parse_error config :
  NewTemplate (Format (V1.with_defaults config)) = None ->
  exists msg, V1.LoggerWithConfig config = Fatal msg.
Proof. intros H. unfold V1.LoggerWithConfig. rewrite H. by eexists. Qed.

(** C8. The format ["${url"] does not parse.  The variant with the threshold
    ends the process on it.  The other variant returns a handler all the
    same, built around the nil template; served in a chain, that handler
    runs the rest of the chain and then panics. *)
Theorem LoggerWithConfig_V2_builds_a_handler_on_a_broken_format :
  NewTemplate (Format broken) = None /\
  V1.LoggerWithConfig broken = Fatal "unexpected error when parsing template" /\
  V2.LoggerWithConfig broken = mkHandlerFunc (CallNext Throw) true /\
  (exists c, serve [V2.LoggerWithConfig broken; terminal] once get_world = Panicked c /\
             invoked (trace c) = [0; 1]).
Proof.
  split; [reflexivity|]. split; [reflexivity|]. split; [reflexivity|].
  eexists. split; reflexivity.
Qed.

End LoggerFacts.

(** ** Constant-time comparison *)

Module SubtleFacts.
Import GoString Subtle GoFacts.

Lemma byte_lor a b : is_byte a -> is_byte b -> is_byte (Z.lor a b).
Proof.
  unfold is_byte. intros [Ha0 Ha] [Hb0 Hb]. split; [by apply Z.lor_nonneg|].
  destruct (Z.eq_dec (Z.lor a b) 0) as [->|Hne]; [lia|].
  assert (0 < Z.lor a b) by (pose proof (proj2 (Z.lor_nonneg a b) (conj Ha0 Hb0)); lia).
  change 256 with (2 ^ 8). apply Z.log2_lt_pow2; [assumption|].
  rewrite Z.log2_lor by assumption.
  destruct (Z.eq_dec a 0) as [->|Ha'], (Z.eq_dec b 0) as [->|Hb']; simpl.
  - lia.
  - rewrite Z.max_r by apply Z.log2_nonneg.
    apply Z.log2_lt_pow2; [lia|]. change (2 ^ 8) with 256. lia.
  - rewrite Z.max_l by apply Z.log2_nonneg.
    apply Z.log2_lt_pow2; [lia|]. change (2 ^ 8) with 256. lia.
  - apply Z.max_lub_lt; apply Z.log2_lt_pow2; (lia || (change (2 ^ 8) with 256; lia)).
Qed.

Lemma byte_lxor a b : is_byte a -> is_byte b -> is_byte (Z.lxor a b).
Proof.
  unfold is_byte. intros [Ha0 Ha] [Hb0 Hb].
  assert (H0 : 0 <= Z.lxor a b) by (apply Z.lxor_nonneg; lia).
  split; [assumption|].
  destruct (Z.eq_dec (Z.lxor a b) 0) as [->|Hne]; [lia|].
  change 256 with (2 ^ 8). apply Z.log2_lt_pow2; [lia|].
  eapply Z.le_lt_trans; [by apply Z.log2_lxor|].
  destruct (Z.eq_dec a 0) as [->|Ha'], (Z.eq_dec b 0) as [->|Hb']; simpl.
  - lia.
  - rewrite Z.max_r by apply Z.log2_nonneg.
    apply Z.log2_lt_pow2; [lia|]. change (2 ^ 8) with 256. lia.
  - rewrite Z.max_l by apply Z.log2_nonneg.
    apply Z.log2_lt_pow2; [lia|]. change (2 ^ 8) with 256. lia.
  - apply Z.max_lub_lt; apply Z.log2_lt_pow2; (lia || (change (2 ^ 8) with 256; lia)).
Qed.

Lemma ConstantTimeByteEq_zero v :
  is_byte v -> ConstantTimeByteEq v 0 = if Z.eq_dec v 0 then 1 else 0.
Proof.
  intros [H0 H]. unfold ConstantTimeByteEq. rewrite Z.lxor_0_r.
  destruct (Z.eq_dec v 0) as [->|Hne]; [reflexivity|].
  rewrite Z.mod_small by lia. rewrite Z.shiftr_div_pow2 by lia.
  apply Z.div_small. lia.
Qed.

(** The accumulator, started at [v]: it is a byte, and it is zero exactly
    when it started at zero and the two slices agree everywhere. *)
Lemma fold_accumulate x : forall y v,
  List.length x = List.length y ->
  Forall is_byte x -> Forall is_byte y -> is_byte v ->
  let r := fold_left (fun v p => Z.lor v (Z.lxor (fst p) (snd p))) (combine x y) v in
  is_byte r /\ (r = 0 <-> v = 0 /\ x = y).
Proof.
  induction x as [|a x IH]; intros [|b y] v Hlen Hx Hy Hv; simpl in *;
    try discriminate.
  - split; [assumption | tauto].
  - inversion Hx as [|? ? Ha Hx']; inversion Hy as [|? ? Hb Hy']; subst.
    destruct (IH y (Z.lor v (Z.lxor a b))) as [Hr Hiff]; try assumption.
    + by injection Hlen.
    + apply byte_lor; [assumption | by apply byte_lxor].
    + split; [assumption|]. rewrite Hiff, Z.lor_eq_0_iff, Z.lxor_eq_0_iff.
      split.
      * intros [[-> ->] ->]. by split.
      * intros [-> E]. injection E as -> ->. by split.
Qed.

(** [ConstantTimeCompare] decides equality of byte slices. *)
Lemma ConstantTimeCompare_spec x y :
  Forall is_byte x -> Forall is_byte y ->
  ConstantTimeCompare x y = if decide (x = y) then 1 else 0.
Proof.
  intros Hx Hy. unfold ConstantTimeCompare, accumulate.
  destruct (Nat.eqb_spec (List.length x) (List.length y)) as [Hlen|Hlen].
  - destruct (fold_accumulate x y 0 Hlen Hx Hy) as [Hr Hiff]; [unfold is_byte; lia|].
    rewrite ConstantTimeByteEq_zero by assumption.
    destruct (Z.eq_dec _ 0) as [E|E], (decide (x = y)) as [E'|E'];
      try reflexivity; exfalso; tauto.
  - destruct (decide (x = y)) as [->|]; [contradiction | reflexivity].
Qed.

End SubtleFacts.

(** ** The CSRF middleware *)

Module CsrfFacts.
Import GoString Http Yee Middleware CsrfModel Samples GoFacts SubtleFacts WriterFacts.

Lemma validateCSRFToken_spec token clientToken :
  validateCSRFToken token clientToken = true <-> token = clientToken.
Proof.
  unfold validateCSRFToken.
  rewrite ConstantTimeCompare_spec by apply bytes_are_bytes.
  destruct (decide (bytes token = bytes clientToken)) as [E|E].
  - split; [intros _; by apply bytes_inj | reflexivity].
  - split; [discriminate | intros ->; contradiction].
Qed.

Lemma CSRFWithConfig_built config h :
  CSRFWithConfig config = Built h ->
  h = csrf_handler (with_defaults config)
        (choose_creator (lookup_source (with_defaults config))
                        (lookup_field (with_defaults config))).
Proof.
  unfold CSRFWithConfig, lookup_source, lookup_field.
  destruct (Split (TokenLookup (with_defaults config)) ":" !! 1%nat) as [field|];
    [|discriminate].
  intros [= <-]. reflexivity.
Qed.

(** The extractors fail exactly on the empty string, and change nothing
    but the cache of the parsed query. *)
Lemma choose_creator_spec source field e :
  exists e',
    choose_creator source field e =
      (if String.eqb (extractor_reads source field e) EmptyString
       then (EmptyString, Some (String.append "missing csrf token in the "
              (String.append (if String.eqb source "query" then "query"
                              else if String.eqb source "form" then "form"
                              else "header") " string")))
       else (extractor_reads source field e, None), e') /\
    r e' = r e /\ w e' = w e /\ store e' = store e /\
    compared e' = compared e /\ sink e' = sink e /\ now e' = now e.
Proof.
  unfold choose_creator, extractor_reads.
  destruct (String.eqb source "query") eqn:Eq; [|destruct (String.eqb source "form") eqn:Ef].
  - unfold csrfTokenFromQuery, QueryParam.
    destruct (queryList e) as [q|] eqn:El; simpl; rewrite ?El; simpl;
      match goal with |- context [String.eqb ?a EmptyString] =>
        destruct (String.eqb a EmptyString) end;
      eexists; (split; [reflexivity|]); by repeat split.
  - unfold csrfTokenFromForm, FormValue. simpl.
    match goal with |- context [String.eqb ?a EmptyString] =>
      destruct (String.eqb a EmptyString) end;
      eexists; (split; [reflexivity|]); by repeat split.
  - unfold csrfTokenFromHeader, GetHeader. simpl.
    match goal with |- context [String.eqb ?a EmptyString] =>
      destruct (String.eqb a EmptyString) end;
      eexists; (split; [reflexivity|]); by repeat split.
Qed.

Lemma with_pub_twice c e e' : with_pub (with_pub c e) e' = with_pub c e'.
Proof. reflexivity. Qed.

(** With a code of three digits [ServerError] does not panic: it returns
    the error it was given. *)
Lemma ServerError_result code msg e :
  valid_code code = true ->
  ServerError code msg e = (Returns (Some msg), rejected code msg e).
Proof.
  intros Hv. unfold rejected, ServerError, String_, Blob.
  destruct (writeContentType MIMETextPlainCharsetUTF8 e) as [[] e1].
  destruct (WriteHeader_valid (w e1) code Hv) as [wr' ->].
  by destruct (Write wr' msg).
Qed.

(** The handler, path by path. *)
Lemma csrf_handler_run config creator next c :
  exec next (csrf_handler config creator) c =
  let '(token, err, e1) := reference_token config (pub c) in
  if is_safe_method (Method (r e1))
  then then_return next (with_pub c (issued config token e1)) err
  else
    let '(extracted, e2) := creator e1 in
    match snd extracted with
    | Some msg => Ok (Some msg) (with_pub c (rejected StatusBadRequest msg e2))
    | None =>
        if validateCSRFToken token (fst extracted)
        then then_return next
               (with_pub c (issued config token (noted token (fst extracted) e2))) err
        else Ok (Some "invalid csrf token")
               (with_pub c (rejected StatusForbidden "invalid csrf token"
                              (noted token (fst extracted) e2)))
    end.
Proof.
  unfold csrf_handler, reference_token.
  cbn [exec]. unfold Cookie at 1.
  destruct (List.find _ (Cookies (r (pub c)))) as [ck|].
  - cbn [exec ret pub with_pub Request fst snd].
    destruct (is_safe_method (Method (r (pub c)))); [reflexivity|].
    cbn [exec pub with_pub].
    destruct (creator (pub c)) as [[ct [msg|]] e2]; cbn [exec pub with_pub fst snd].
    + by rewrite ServerError_result, !with_pub_twice by reflexivity.
    + unfold validate at 1. cbn [exec pub with_pub fst snd negb].
      fold (noted (Value ck) ct e2).
      destruct (validateCSRFToken (Value ck) ct); cbn [negb exec pub with_pub];
        [reflexivity|].
      by rewrite ServerError_result, !with_pub_twice by reflexivity.
  - cbn [exec pub with_pub].
    destruct (fresh_token (pub c)) as [token e1].
    cbn [exec pub with_pub Request].
    destruct (is_safe_method (Method (r e1))); [reflexivity|].
    cbn [exec pub with_pub].
    destruct (creator e1) as [[ct [msg|]] e2]; cbn [exec pub with_pub fst snd].
    + by rewrite ServerError_result, !with_pub_twice by reflexivity.
    + unfold validate at 1. cbn [exec pub with_pub fst snd negb].
      fold (noted token ct e2).
      destruct (validateCSRFToken token ct); cbn [negb exec pub with_pub];
        [reflexivity|].
      by rewrite ServerError_result, !with_pub_twice by reflexivity.
Qed.

Lemma fresh_token_world e :
  snd (fresh_token e) = with_entropy_pos e (entropy_pos e + 16).
Proof. reflexivity. Qed.

Lemma reference_token_world config e token err e1 :
  reference_token config e = (token, err, e1) ->
  r e1 = r e /\ w e1 = w e /\ store e1 = store e /\ compared e1 = compared e /\
  queryList e1 = queryList e /\ now e1 = now e.
Proof.
  unfold reference_token. destruct (List.find _ _).
  - intros [= _ _ <-]. by repeat split.
  - pose proof (fresh_token_world e) as Hf.
    destruct (fresh_token e) as [t e']. simpl in Hf. subst e'.
    intros [= _ _ <-]. by repeat split.
Qed.

(** [ServerError] on a response that has not been committed, with one of the
    two codes of the middleware: the status is the given one. *)
Lemma rejected_response code msg e :
  wroteHeader (w e) = false ->
  valid_code code = true -> informational code = false ->
  wroteHeader (w (rejected code msg e)) = true /\
  wStatus (w (rejected code msg e)) = code.
Proof.
  intros Hfresh Hv Hi.
  destruct (Blob_writer code MIMETextPlainCharsetUTF8 msg e Hfresh Hv Hi)
    as (H1 & H2 & _).
  unfold rejected, ServerError, String_.
  destruct (Blob code MIMETextPlainCharsetUTF8 msg e) as [[x|] e1]; by split.
Qed.

Lemma rejected_compared code msg e : compared (rejected code msg e) = compared e.
Proof.
  pose proof (Blob_frame code MIMETextPlainCharsetUTF8 msg e) as (_ & _ & H & _).
  unfold rejected, ServerError, String_.
  by destruct (Blob code MIMETextPlainCharsetUTF8 msg e) as [[x|] e1].
Qed.

(** The cookie, the store entry and the Vary header of the allowed path. *)
Lemma issued_facts config token e :
  let e' := issued config token e in
  SetCookies (w e') = (SetCookies (w e) ++ [new_cookie config token (now e)])%list /\
  Header_Get (wHeader (w e')) HeaderVary = HeaderCookie /\
  fst (Get (Key config) e') = Some (AString token) /\
  compared e' = compared e /\
  wroteHeader (w e') = wroteHeader (w e) /\ wBody (w e') = wBody (w e).
Proof.
  unfold issued, SetHeader, Put, SetCookie, Get, Header_Get, Header_Set. simpl.
  repeat split.
  - by rewrite lookup_insert_eq.
  - by rewrite lookup_insert_eq.
Qed.

(** *** Fresh tokens *)

Lemma hex_digit_facts d :
  Ascii.eqb (Uuid.hex_digit d) "-" = false /\ is_hex_digit (Uuid.hex_digit d) = true.
Proof.
  unfold Uuid.hex_digit.
  destruct d as [|p|p]; try (split; reflexivity);
    repeat (destruct p as [p|p|]; try (split; reflexivity)).
Qed.

Lemma append_cons x s t : String.append (String x s) t = String x (String.append s t).
Proof. reflexivity. Qed.

Lemma append_empty t : String.append EmptyString t = t.
Proof. reflexivity. Qed.

Lemma remove_all_app a s1 s2 :
  remove_all a (String.append s1 s2)
  = String.append (remove_all a s1) (remove_all a s2).
Proof.
  induction s1 as [|x s1 IH]; [reflexivity|].
  simpl. rewrite IH. by destruct (Ascii.eqb x a).
Qed.

Lemma string_length_app s1 s2 :
  String.length (String.append s1 s2) = (String.length s1 + String.length s2)%nat.
Proof.
  induction s1 as [|x s1 IH]; [reflexivity|].
  simpl. by rewrite IH.
Qed.

Lemma list_ascii_app s1 s2 :
  list_ascii_of_string (String.append s1 s2)
  = (list_ascii_of_string s1 ++ list_ascii_of_string s2)%list.
Proof.
  induction s1 as [|x s1 IH]; [reflexivity|].
  simpl. by rewrite IH.
Qed.

(** The hexadecimal form of a byte slice: two digits a byte, no hyphen. *)
Lemma hex_shape bs :
  remove_all "-" (Uuid.hex bs) = Uuid.hex bs /\
  String.length (Uuid.hex bs) = (2 * List.length bs)%nat /\
  forallb is_hex_digit (list_ascii_of_string (Uuid.hex bs)) = true.
Proof.
  induction bs as [|b bs (IH1 & IH2 & IH3)]; [by repeat split|].
  cbn [Uuid.hex fold_right]. fold (Uuid.hex bs).
  unfold Uuid.hex_byte. rewrite !append_cons, append_empty.
  cbn [remove_all String.length list_ascii_of_string forallb List.length].
  rewrite !(proj1 (hex_digit_facts _)), !(proj2 (hex_digit_facts _)).
  rewrite IH1, IH2, IH3. repeat split. lia.
Qed.

Lemma New_length e : List.length (fst (Uuid.New e)) = 16%nat.
Proof.
  unfold Uuid.New. cbn [fst]. by rewrite !length_insert, length_map, length_seq.
Qed.

(** A fresh token is thirty-two hexadecimal digits, whatever the random
    bytes are. *)
Lemma fresh_token_shape e :
  String.length (fst (fresh_token e)) = 32%nat /\
  forallb is_hex_digit (list_ascii_of_string (fst (fresh_token e))) = true.
Proof.
  unfold fresh_token. pose proof (New_length e) as Hlen.
  destruct (Uuid.New e) as [u e1]. cbn [fst] in *.
  unfold Uuid.String_.
  repeat (rewrite remove_all_app || rewrite (proj1 (hex_shape _))
          || (cbn [remove_all Ascii.eqb Bool.eqb])).
  split.
  - repeat (rewrite string_length_app || rewrite (proj1 (proj2 (hex_shape _)))).
    rewrite !length_firstn, !length_skipn, Hlen. reflexivity.
  - repeat (rewrite list_ascii_app || rewrite forallb_app
            || rewrite (proj2 (proj2 (hex_shape _)))).
    reflexivity.
Qed.

Lemma new_cookie_fields config token t :
  new_cookie config token t =
  mkCookie (CookieName config) token (CookiePath config) (CookieDomain config)
           (t + GoInt.wrap64 (CookieMaxAge config * 1000000000))
           (CookieSecure config) (CookieHTTPOnly config).
Proof.
  unfold new_cookie, Time.Add, Time.seconds, Time.Second.
  destruct (String.eqb_spec (CookiePath config) EmptyString) as [->|];
  destruct (String.eqb_spec (CookieDomain config) EmptyString) as [->|];
  reflexivity.
Qed.

(** For the sources "query" and "form" the extractor reads the request, as
    long as no earlier call has cached another query. *)
Lemma extractor_reads_supplied source field e :
  source = "query" \/ source = "form" ->
  queryList e = None ->
  extractor_reads source field e = supplied source field (r e).
Proof.
  unfold extractor_reads, supplied. intros [-> | ->] Hq;
    cbn [String.eqb Ascii.eqb Bool.eqb andb]; by rewrite ?Hq.
Qed.

(** For every other source it reads the header map of the response
    writer. *)
Lemma extractor_reads_header source field e :
  source <> "query" -> source <> "form" ->
  extractor_reads source field e = Header_Get (wHeader (w e)) field /\
  supplied source field (r e) = Header_Get (Header (r e)) field.
Proof.
  intros Hq Hf. apply String.eqb_neq in Hq, Hf.
  unfold extractor_reads, supplied. by rewrite Hq, Hf.
Qed.

Lemma choose_creator_header source field e :
  source <> "query" -> source <> "form" ->
  exists e',
    choose_creator source field e =
      (if String.eqb (Header_Get (wHeader (w e)) field) EmptyString
       then (EmptyString, Some "missing csrf token in the header string")
       else (Header_Get (wHeader (w e)) field, None), e') /\
    r e' = r e /\ w e' = w e /\ store e' = store e /\
    compared e' = compared e /\ sink e' = sink e /\ now e' = now e.
Proof.
  intros Hq Hf.
  destruct (choose_creator_spec source field e) as (e' & Hspec & Hrest).
  rewrite (proj1 (extractor_reads_header source field e Hq Hf)) in Hspec.
  apply String.eqb_neq in Hq, Hf. rewrite Hq, Hf in Hspec.
  exists e'. split; [exact Hspec | exact Hrest].
Qed.

(** What [ServerError] leaves alone. *)
Lemma rejected_frame code msg e :
  SetCookies (w (rejected code msg e)) = SetCookies (w e) /\
  store (rejected code msg e) = store e /\
  compared (rejected code msg e) = compared e /\
  r (rejected code msg e) = r e /\
  Header_Get (wHeader (w (rejected code msg e))) HeaderVary
    = Header_Get (wHeader (w e)) HeaderVary.
Proof.
  assert (Hsnd : rejected code msg e = snd (Blob code MIMETextPlainCharsetUTF8 msg e)).
  { unfold rejected, ServerError, String_.
    by destruct (Blob code MIMETextPlainCharsetUTF8 msg e) as [[x|] e1]. }
  rewrite Hsnd.
  destruct (Blob_frame code MIMETextPlainCharsetUTF8 msg e)
    as (H1 & H2 & H3 & H4 & _ & H6).
  rewrite H1, H2, H3, H4, H6. split_and!; try reflexivity.
  unfold writeContentType.
  destruct (String.eqb _ EmptyString); cbn [snd w with_w wHeader with_wHeader];
    [|reflexivity].
  rewrite Header_Get_Set. destruct (decide _) as [E|_]; [|reflexivity].
  vm_compute in E. discriminate.
Qed.

Lemma rejected_committed code msg e :
  valid_code code = true -> wroteHeader (w (rejected code msg e)) = true.
Proof.
  intros Hv.
  pose proof (Blob_commits code MIMETextPlainCharsetUTF8 msg e Hv) as H.
  unfold rejected, ServerError, String_.
  by destruct (Blob code MIMETextPlainCharsetUTF8 msg e) as [[x|] e1].
Qed.

Lemma reference_token_found config e ck :
  List.find (fun ck => String.eqb (Name ck) (CookieName config)) (Cookies (r e))
    = Some ck ->
  reference_token config e = (Value ck, None, e).
Proof. unfold reference_token. by intros ->. Qed.

Lemma reference_token_fresh config e :
  List.find (fun ck => String.eqb (Name ck) (CookieName config)) (Cookies (r e))
    = None ->
  reference_token config e
  = (fst (fresh_token e), ErrNoCookie, with_entropy_pos e (entropy_pos e + 16)).
Proof.
  unfold reference_token. intros ->.
  pose proof (fresh_token_world e) as H.
  destruct (fresh_token e) as [t e1]. cbn [fst snd] in *. by subst e1.
Qed.

Lemma validateCSRFToken_false a b : a <> b -> validateCSRFToken a b = false.
Proof.
  intros Hne. destruct (validateCSRFToken a b) eqn:E; [|reflexivity].
  by apply validateCSRFToken_spec in E.
Qed.

Lemma validateCSRFToken_same a : validateCSRFToken a a = true.
Proof. by apply validateCSRFToken_spec. Qed.

(** *** The length of a fresh token *)

(** C6. Whatever [TokenLength] is configured (8, say, or 200) and whatever
    the random bytes are, a GET request without a cookie gets the cookie
    [_csrf] with a token of exactly thirty-two hexadecimal digits: the
    option is defaulted (0 becomes 16) and then never read, the token is
    always the hexadecimal form of a UUID. *)
Theorem csrf_fresh_token_ignores_TokenLength :
  forall (tl : Z) (rnd : nat -> Byte.byte) (next : context -> outcome unit),
    let config := mkCSRFConfig tl EmptyString EmptyString EmptyString
                               EmptyString EmptyString 0 false false in
    let c := newContext (world_of (request MethodGet ∅ []) rnd) in
    TokenLength (with_defaults config) = (if tl =? 0 then 16 else tl) /\
    exists (h : prog) (token : string) (e1 : world),
      CSRFWithConfig config = Built h /\
      (token, e1) = fresh_token (pub c) /\
      exec next h c
        = then_return next (with_pub c (issued (with_defaults config) token e1))
                      ErrNoCookie /\
      SetCookies (w (issued (with_defaults config) token e1))
        = [mkCookie "_csrf" token EmptyString EmptyString
                    (GoInt.wrap64 (28800 * 1000000000)) false false] /\
      String.length token = 32%nat /\
      forallb is_hex_digit (list_ascii_of_string token) = true.
Proof.
  intros tl rnd next config c. split; [reflexivity|].
  pose proof (fresh_token_shape (pub c)) as [Hlen Hhex].
  pose proof (fresh_token_world (pub c)) as Hworld.
  destruct (fresh_token (pub c)) as [token e1] eqn:Hfresh.
  cbn [fst snd] in Hlen, Hhex, Hworld.
  eexists _, token, e1. split; [reflexivity|]. split; [reflexivity|].
  split; [|split; [|by split]].
  - rewrite csrf_handler_run. unfold reference_token.
    change (Cookies (r (pub c))) with (@nil Http.Cookie).
    cbn [List.find]. rewrite Hfresh.
    replace (Method (r e1)) with MethodGet by (subst e1; reflexivity).
    reflexivity.
  - destruct (issued_facts (with_defaults config) token e1) as (H1 & _).
    rewrite H1, new_cookie_fields. subst e1. reflexivity.
Qed.

End CsrfFacts.

(** ** More of [context.go]: the store, the headers, the response helpers *)

Module ContextMore.
Import Http Yee Samples WriterFacts.

(** X1. [Put] then [Get]: the key just written gives the value written,
    every other key gives what it gave before, also when the store was still
    the nil map; [Put] touches nothing but the store, and writing a key twice
    leaves the second value. *)
Theorem Put_Get_round_trip :
  forall (e : world) (key key' : string) (v v' : any),
    fst (Get key (snd (Put key v e))) = Some v /\
    (key <> key' -> fst (Get key' (snd (Put key v e))) = fst (Get key' e)) /\
    fst (Get key (snd (Put key v' (snd (Put key v e))))) = Some v' /\
    snd (Get key e) = e /\
    (store e = None -> fst (Get key e) = None) /\
    with_store (snd (Put key v e)) (store e) = e.
Proof.
  intros e key key' v v'. unfold Get, Put. simpl. split_and!.
  - by rewrite lookup_insert_eq.
  - intros Hne. rewrite lookup_insert_ne by assumption.
    destruct (store e); [reflexivity | apply lookup_empty].
  - by rewrite lookup_insert_eq.
  - reflexivity.
  - by intros ->.
  - by destruct e.
Qed.

Lemma Put_Get_round_trip_witness :
  fst (Get "user" (snd (Put "csrf" (AString "t") get_world))) = None /\
  fst (Get "csrf" (snd (Put "csrf" (AString "t") get_world))) = Some (AString "t").
Proof.
  pose proof (Put_Get_round_trip get_world "csrf" "user" (AString "t") (AString "t"))
    as (H1 & H2 & _ & _ & H3 & _).
  split; [|exact H1].
  rewrite H2 by discriminate. exact (H3 eq_refl).
Defined.

(** X2. The response helpers set the Content-Type only when none is set:
    after [Blob] the Content-Type is the one that was there, or the helper's
    own if there was none, whether the call returns or panics (the header is
    set before the status is written); and [Blob] panics exactly when no
    status is committed yet and the code is not of three digits. *)
Theorem Blob_keeps_an_earlier_content_type :
  forall (e : world) (code : Z) (contentType b : string),
    Header_Get (wHeader (w (snd (Blob code contentType b e)))) HeaderContentType
    = (if String.eqb (Header_Get (wHeader (w e)) HeaderContentType) EmptyString
       then contentType
       else Header_Get (wHeader (w e)) HeaderContentType) /\
    (fst (Blob code contentType b e) = Panics
     <-> wroteHeader (w e) = false /\ valid_code code = false).
Proof.
  intros e code contentType b. split; [|apply Blob_panics].
  destruct (Blob_frame code contentType b e) as (_ & _ & _ & _ & _ & ->).
  unfold writeContentType.
  destruct (String.eqb (Header_Get (wHeader (w e)) HeaderContentType) EmptyString) eqn:E;
    cbn [snd w with_w wHeader with_wHeader]; [|reflexivity].
  rewrite Header_Get_Set. by destruct (decide _).
Qed.



(** X4. [GetHeader] reads what [SetHeader] wrote: after [SetHeader key
    value], [GetHeader] gives [value] for every spelling of the key with the
    same canonical form and is unchanged for the others; and it reads the
    header map of the response only, whatever the headers of the request
    are. *)
Theorem SetHeader_GetHeader_round_trip :
  forall (e : world) (key key' value : string) (rq : Http.Request),
    (CanonicalMIMEHeaderKey key = CanonicalMIMEHeaderKey key' ->
     fst (GetHeader key' (snd (SetHeader key value e))) = value) /\
    (CanonicalMIMEHeaderKey key <> CanonicalMIMEHeaderKey key' ->
     fst (GetHeader key' (snd (SetHeader key value e))) = fst (GetHeader key' e)) /\
    fst (GetHeader key (with_r e rq)) = fst (GetHeader key e) /\
    Http.Header (r (snd (SetHeader key value e))) = Http.Header (r e).
Proof.
  intros e key key' value rq. unfold GetHeader, SetHeader. simpl.
  rewrite Header_Get_Set.
  destruct (decide (CanonicalMIMEHeaderKey key = CanonicalMIMEHeaderKey key'));
    by repeat split.
Qed.

Lemma SetHeader_GetHeader_round_trip_witness :
  fst (GetHeader "x-csrf-token" (snd (SetHeader "X-CSRF-Token" "t" post_world))) = "t" /\
  fst (GetHeader "Vary" (snd (SetHeader "X-CSRF-Token" "t" post_world))) = EmptyString.
Proof.
  pose proof (SetHeader_GetHeader_round_trip post_world "X-CSRF-Token" "x-csrf-token" "t"
                (r post_world)) as (H1 & _).
  pose proof (SetHeader_GetHeader_round_trip post_world "X-CSRF-Token" "Vary" "t"
                (r post_world)) as (_ & H2 & _).
  split; [apply H1; reflexivity|].
  rewrite H2; [reflexivity | vm_compute; discriminate].
Defined.

(** X5. The cache of [QueryParam] is transparent: what a call returns is the
    value in the parsed query, whether or not an earlier call has filled the
    cache; a call after the first changes nothing; a name the query does not
    have gives the empty string. *)
Theorem QueryParam_cache_is_transparent :
  forall (e : world) (name name' : string),
    let q := default (URLQuery (r e)) (queryList e) in
    fst (QueryParam name e) = Values_Get q name /\
    fst (QueryParam name' (snd (QueryParam name e))) = fst (QueryParam name' e) /\
    snd (QueryParam name' (snd (QueryParam name e))) = snd (QueryParam name e) /\
    (q !! name = None -> fst (QueryParam name e) = EmptyString).
Proof.
  intros e name name' q. unfold QueryParam, q.
  destruct (queryList e) as [ql|] eqn:El; simpl; rewrite ?El; simpl.
  - split_and!; try reflexivity. unfold Values_Get. by intros ->.
  - split_and!; try reflexivity. unfold Values_Get. by intros ->.
Qed.

Lemma QueryParam_cache_is_transparent_witness :
  fst (QueryParam "token" get_world) = EmptyString.
Proof.
  exact (proj2 (proj2 (proj2 (QueryParam_cache_is_transparent get_world "token" "token")))
           eq_refl).
Defined.

(** X6. [Scheme] never returns the empty string. *)
Theorem Scheme_is_never_empty :
  forall e : world, Scheme e <> EmptyString.
Proof.
  intros e. unfold Scheme. cbv zeta.
  destruct (String.eqb_spec (Header_Get (Header (r e)) HeaderXForwardedProto)
                            EmptyString) as [E1|E1]; cbn [negb]; [|exact E1].
  destruct (String.eqb_spec (Header_Get (Header (r e)) HeaderXForwardedProtocol)
                            EmptyString) as [E2|E2]; cbn [negb]; [|exact E2].
  destruct (String.eqb (Header_Get (Header (r e)) HeaderXForwardedSsl) "on");
    [discriminate|].
  destruct (String.eqb_spec (Header_Get (Header (r e)) HeaderXUrlScheme)
                            EmptyString) as [E4|E4]; cbn [negb];
    [discriminate | exact E4].
Qed.

(** X7. [Scheme] looks at the headers of the request and at nothing else,
    the TLS state included: requests with the same header map get the same
    scheme, so a request that came in over TLS with no forwarding header
    still gets "http". *)
Theorem Scheme_depends_on_the_headers_only :
  forall e e' : world,
    Http.Header (r e) = Http.Header (r e') -> Scheme e = Scheme e'.
Proof. intros e e' H. unfold Scheme. by rewrite H. Qed.

(** A request over TLS without forwarding headers. *)
Definition tls_world : world :=
  with_r get_world
         (mkRequest MethodGet "/" EmptyString ∅ ∅ [] ∅ "HTTP/1.1" "example.org"
                    "192.0.2.1" true).

Lemma Scheme_depends_on_the_headers_only_witness :
  fst (IsTls tls_world) = true /\ Scheme tls_world = "http".
Proof.
  split; [reflexivity|].
  rewrite (Scheme_depends_on_the_headers_only tls_world get_world eq_refl).
  reflexivity.
Defined.

End ContextMore.

(** ** More of the chain executor *)

Module ChainMore.
Import GoInt Http Yee GoFacts ChainFacts WriterFacts Samples.

Lemma Next_halted c : intercept c = true -> Next c = Ok tt (incr c).
Proof.
  intros Hi. unfold Next, Next_fuel. cbn [loop].
  change (intercept (incr c)) with (intercept c). rewrite Hi.
  by destruct (index (incr c) <? _).
Qed.

(** X8. Once the chain is halted nothing enters a handler any more: whatever
    code runs on a context whose [intercept] is set, with as many calls of
    [Next] as it likes, the trace is the same afterwards and [intercept] is
    still set; a single [Next] only moves the cursor. *)
Theorem halted_context_enters_no_handler :
  forall (p : prog) (c : context),
    intercept c = true ->
    Next c = Ok tt (incr c) /\
    match exec Next p c with
    | Ok _ c' | Panicked c' => trace c' = trace c /\ intercept c' = true
    | OutOfFuel => False
    end.
Proof.
  intros p c Hi. split; [by apply Next_halted|].
  revert c Hi. induction p as [err| |k IH|A m k IH]; intros c Hi; cbn [exec].
  - by split.
  - by split.
  - rewrite Next_halted by assumption. apply (IH (incr c) Hi).
  - destruct (m (pub c)) as [a e']. apply (IH a (with_pub c e') Hi).
Qed.

Lemma halted_context_enters_no_handler_witness :
  Next (with_intercept (with_handlers (newContext get_world) [terminal]) true)
  = Ok tt (incr (with_intercept (with_handlers (newContext get_world) [terminal]) true)).
Proof.
  exact (proj1 (halted_context_enters_no_handler (Return None)
                  (with_intercept (with_handlers (newContext get_world) [terminal]) true)
                  eq_refl)).
Defined.

(** Where the loop returns without the chain being halted, the cursor is
    past the last handler. *)
Lemma loop_exit n : forall s c c',
  loop n s c = Ok tt c' -> intercept c' = false -> s <= index c'.
Proof.
  induction n as [|n IH]; intros s c c' H Hi; [discriminate|].
  cbn [loop] in H.
  destruct (Z.ltb_spec (index c) s) as [Hlt|Hge].
  2:{ injection H as <-. assumption. }
  destruct (intercept c) eqn:Hic.
  { injection H as <-. congruence. }
  destruct (handler_at c) as [h|]; [|discriminate].
  destruct (exec _ (Func h) _) as [err c1|c1|]; [|discriminate..].
  by apply IH in H.
Qed.

(** The flag is only ever set by a failing return. *)
Definition flag_has_a_cause (c : context) : Prop :=
  intercept c = true -> no_failure (trace c) = false.

Lemma no_failure_snoc_false tr ev :
  no_failure tr = false -> no_failure (tr ++ [ev]) = false.
Proof. unfold no_failure. intros H. by rewrite forallb_app, H. Qed.

Lemma failure_in_trace tr :
  no_failure tr = false -> exists k msg, In (Returned k (Some msg)) tr.
Proof.
  induction tr as [|ev tr IH]; [discriminate|]. unfold no_failure. cbn [forallb].
  destruct ev as [i|i [msg|]]; cbn.
  - intros H. destruct (IH H) as (k & m & Hin). exists k, m. by right.
  - intros _. exists i, msg. by left.
  - intros H. destruct (IH H) as (k & m & Hin). exists k, m. by right.
Qed.

Lemma exec_keeps (P : context -> Prop) next :
  (forall c, P c -> forall c', final (next c) = Some c' -> P c') ->
  (forall c e, P c -> P (with_pub c e)) ->
  forall p c, P c -> forall c', final (exec next p c) = Some c' -> P c'.
Proof.
  intros Hnext Hpub. induction p as [err| |k IH|A m k IH]; intros c Hc c' H;
    cbn [exec] in H.
  - by injection H as <-.
  - by injection H as <-.
  - specialize (Hnext c Hc). destruct (next c) as [[] c1|c1|]; cbn [final] in *.
    + eapply IH; [|exact H]. by apply Hnext.
    + injection H as <-. by apply Hnext.
    + discriminate.
  - destruct (m (pub c)) as [a e']. eapply IH; [|exact H]. by apply Hpub.
Qed.

Lemma loop_flag_has_a_cause n : forall s c c',
  flag_has_a_cause c -> final (loop n s c) = Some c' -> flag_has_a_cause c'.
Proof.
  induction n as [|n IH]; intros s c c' Hc H; [discriminate|].
  cbn [loop] in H.
  destruct (index c <? s); [|by injection H as <-].
  destruct (intercept c) eqn:Hic; [by injection H as <-|].
  destruct (handler_at c) as [h|]; [|by injection H as <-].
  assert (Hbody : forall c1,
            final (exec (fun c0 => loop n (Z.of_nat (List.length (handlers c0))) (incr c0))
                        (Func h) (record (Invoke (index c)) c)) = Some c1 ->
            flag_has_a_cause c1).
  { apply (exec_keeps flag_has_a_cause).
    - intros c0 H0 c1 H1. eapply IH; [|exact H1]. exact H0.
    - by intros c0 e H0.
    - unfold flag_has_a_cause. cbn [intercept trace record]. congruence. }
  destruct (exec _ (Func h) _) as [err c1|c1|]; cbn [final] in *.
  - eapply IH; [|exact H]. specialize (Hbody c1 eq_refl).
    unfold flag_has_a_cause in *. destruct err as [msg|]; cbn.
    + intros _. unfold no_failure. rewrite forallb_app. cbn. apply andb_false_r.
    + intros Hi. by apply no_failure_snoc_false, Hbody.
  - injection H as <-. by apply Hbody.
  - discriminate.
Qed.

(** X9. The other half of the halt: when the router's single call of [Next]
    on a new context returns and leaves [intercept] unset, every handler of
    the list has been entered, each once and in list order, also the
    handlers after one that never called [Next] itself, and no handler has
    returned an error; and when it leaves [intercept] set, some handler has
    returned an error. *)
Theorem Next_runs_the_whole_chain_unless_a_handler_fails :
  forall (hs : list HandlerFunc) (e : world) (err : error) (c : context),
    serve hs once e = Ok err c ->
    (intercept c = false ->
     invoked (trace c) = upto (List.length hs) /\
     Z.of_nat (List.length hs) <= index c /\
     no_failure (trace c) = true) /\
    (intercept c = true ->
     exists k msg, In (Returned k (Some msg)) (trace c)).
Proof.
  intros hs e err c Hrun. unfold serve, once in Hrun. cbn [exec] in Hrun.
  set (c0 := with_handlers (newContext e) hs) in *.
  pose proof (Next_spec hs c0 (inv_body_newContext hs e)) as Hspec.
  assert (Hflag : forall c', final (Next c0) = Some c' -> flag_has_a_cause c').
  { intros c' H. unfold Next, Next_fuel in H.
    eapply loop_flag_has_a_cause; [|exact H]. unfold flag_has_a_cause. discriminate. }
  destruct (Next c0) as [[] c1|c1|] eqn:HN; [|discriminate..].
  injection Hrun as <- <-. cbn [post] in Hspec.
  destruct Hspec as [(Hh & _ & _ & _ & Hnf) Hc]. split.
  - intros Hi. destruct (Hc Hi) as [_ Htr].
    unfold Next, Next_fuel in HN. apply loop_exit in HN; [|assumption].
    change (handlers c0) with hs in HN.
    split; [|split; [assumption | by apply Hnf]].
    rewrite Htr. f_equal. lia.
  - intros Hi. specialize (Hflag c1 eq_refl Hi).
    by apply failure_in_trace.
Qed.

Lemma Next_runs_the_whole_chain_unless_a_handler_fails_witness :
  (exists c, serve [terminal; wrapper; terminal] once get_world = Ok None c /\
             invoked (trace c) = [0; 1; 2]) /\
  (exists c, serve [terminal; failing; terminal] once get_world = Ok None c /\
             exists k msg, In (Returned k (Some msg)) (trace c)).
Proof.
  split.
  - eexists. split; [vm_compute; reflexivity|].
    eapply (proj1 (Next_runs_the_whole_chain_unless_a_handler_fails
                     [terminal; wrapper; terminal] get_world None _ _)).
    reflexivity.
  - eexists. split; [vm_compute; reflexivity|].
    eapply (proj2 (Next_runs_the_whole_chain_unless_a_handler_fails
                     [terminal; failing; terminal] get_world None _ _)).
    reflexivity.
  Unshelve. all: vm_compute; reflexivity.
Defined.

(** *** A first handler that answers by itself, or wraps a terminal one *)

(** The context after a chain whose first handler returned [msg] without
    calling [Next]. *)
Definition stopped_at_first (hs : list HandlerFunc) (e e' : world) (msg : string)
  : context :=
  mkContext e' (URLPath (r e)) (Method (r e)) hs 1 true
            [Invoke 0; Returned 0 (Some msg)].

Lemma serve_first_handler_fails p mw rest e e' msg :
  (forall next c, pub c = e -> exec next p c = Ok (Some msg) (with_pub c e')) ->
  serve (mkHandlerFunc p mw :: rest) once e
  = Ok None (stopped_at_first (mkHandlerFunc p mw :: rest) e e' msg).
Proof.
  intros Hp. unfold serve, once. cbn [exec]. unfold Next, Next_fuel.
  set (hs := mkHandlerFunc p mw :: rest).
  set (c0 := with_handlers (newContext e) hs).
  assert (H : loop (S (List.length (handlers c0)))
                    (Z.of_nat (List.length (handlers c0))) (incr c0)
               = Ok tt (incr (with_intercept
                                (record (Returned 0 (Some msg))
                                        (with_pub (record (Invoke 0) (incr c0)) e'))
                                true))).
  { apply (loop_halts_on_error (S (List.length rest)) (incr c0)
             (mkHandlerFunc p mw) msg
             (with_pub (record (Invoke 0) (incr c0)) e')).
    - lia.
    - change (index (incr c0)) with 0. change (handlers (incr c0)) with hs.
      change (List.length hs) with (S (List.length rest)). lia.
    - reflexivity.
    - reflexivity.
    - change (index (incr c0)) with 0. cbn [Func]. by apply Hp. }
  rewrite H. reflexivity.
Qed.

(** The context after the chain of a wrapping handler and a terminal one,
    the wrapping handler having left the world [e'] before its call of
    [Next] and returned [err] after it. *)
Definition wrapped_terminal (hs : list HandlerFunc) (e e' : world) (err : error)
  : context :=
  mkContext e' (URLPath (r e)) (Method (r e)) hs 3
            (match err with Some _ => true | None => false end)
            [Invoke 0; Invoke 1; Returned 1 None; Returned 0 err].

Lemma serve_wrapper_then_terminal p mw e e' err :
  (forall next c, pub c = e ->
     exec next p c = match next (with_pub c e') with
                     | Ok _ c' => Ok err c'
                     | Panicked c' => Panicked c'
                     | OutOfFuel => OutOfFuel
                     end) ->
  serve [mkHandlerFunc p mw; terminal] once e
  = Ok None (wrapped_terminal [mkHandlerFunc p mw; terminal] e e' err).
Proof.
  intros Hp. unfold serve, once. cbn [exec]. unfold Next, Next_fuel.
  set (hs := [mkHandlerFunc p mw; terminal]).
  set (c0 := with_handlers (newContext e) hs).
  change (handlers c0) with hs. change (List.length hs) with 2%nat.
  change (Z.of_nat 2) with 2.
  cbn [loop]. change (index (incr c0)) with 0.
  change (0 <? 2) with true. change (intercept (incr c0)) with false. cbv iota.
  change (handler_at (incr c0)) with (Some (mkHandlerFunc p mw)). cbv iota.
  cbn [Func]. rewrite Hp by reflexivity.
  destruct err; reflexivity.
Qed.



(** A handler that answers with [c.MiddError(code, err)], [msg] being the
    message of [err]. *)
Definition report (code : Z) (msg : string) : prog :=
  let! err := MiddError code msg in Return err.



End ChainMore.

(** ** The CSRF middleware and the header of the request *)

Module CsrfHeaderSource.
Import GoString Http Yee Middleware CsrfModel Samples.
Import GoFacts SubtleFacts WriterFacts CsrfFacts ChainFacts ChainMore.

(** The handler on a request with an unsafe method that carries the cookie,
    for a source other than "query" and "form": what it does is decided by
    the header map of the response writer. *)
Lemma header_source_run config c ck :
  lookup_source (with_defaults config) <> "query" ->
  lookup_source (with_defaults config) <> "form" ->
  is_safe_method (Method (r (pub c))) = false ->
  List.find (fun ck => String.eqb (Name ck) (CookieName (with_defaults config)))
            (Cookies (r (pub c))) = Some ck ->
  let cfg := with_defaults config in
  let h := csrf_handler cfg (choose_creator (lookup_source cfg) (lookup_field cfg)) in
  let seen := Header_Get (wHeader (w (pub c))) (lookup_field cfg) in
  exists e2,
    w e2 = w (pub c) /\ store e2 = store (pub c) /\
    compared e2 = compared (pub c) /\ now e2 = now (pub c) /\
    forall next,
      exec next h c =
      if String.eqb seen EmptyString
      then Ok (Some "missing csrf token in the header string")
              (with_pub c (rejected StatusBadRequest
                             "missing csrf token in the header string" e2))
      else if validateCSRFToken (Value ck) seen
      then then_return next
             (with_pub c (issued cfg (Value ck) (noted (Value ck) seen e2))) None
      else Ok (Some "invalid csrf token")
              (with_pub c (rejected StatusForbidden "invalid csrf token"
                             (noted (Value ck) seen e2))).
Proof.
  intros Hq Hf Hm Hfind cfg h seen.
  destruct (choose_creator_header (lookup_source cfg) (lookup_field cfg) (pub c) Hq Hf)
    as (e2 & Hspec & _ & Hw2 & Hs2 & Hc2 & _ & Hn2).
  fold seen in Hspec.
  exists e2. split_and!; try assumption.
  intros next. unfold h.
  rewrite csrf_handler_run, (reference_token_found cfg (pub c) ck Hfind), Hm, Hspec.
  by destruct (String.eqb seen EmptyString).
Qed.

(** C4. A request with an unsafe method that carries in its header, under
    the configured name, the very token of its cookie, served with a header
    source (the default "header:X-CSRF-Token" included) on a response whose
    own header map has no such field: the comparison the design calls for
    would succeed, yet the handler answers 400 "missing csrf token in the
    header string", compares nothing and never calls [Next], whatever [Next]
    would do. The extractor goes through [GetHeader], which reads the header
    map of the response writer. *)
Theorem csrf_header_lookup_reads_the_response_header :
  forall (config : CSRFConfig) (h : prog) (c : context) (ck : Http.Cookie),
    CSRFWithConfig config = Built h ->
    lookup_source (with_defaults config) <> "query" ->
    lookup_source (with_defaults config) <> "form" ->
    is_safe_method (Method (r (pub c))) = false ->
    List.find (fun ck => String.eqb (Name ck) (CookieName (with_defaults config)))
              (Cookies (r (pub c))) = Some ck ->
    supplied (lookup_source (with_defaults config))
             (lookup_field (with_defaults config)) (r (pub c)) = Value ck ->
    Value ck <> EmptyString ->
    Header_Get (wHeader (w (pub c))) (lookup_field (with_defaults config))
      = EmptyString ->
    wroteHeader (w (pub c)) = false ->
    validateCSRFToken (Value ck)
      (supplied (lookup_source (with_defaults config))
                (lookup_field (with_defaults config)) (r (pub c))) = true /\
    exists e',
      (forall next,
         exec next h c
         = Ok (Some "missing csrf token in the header string") (with_pub c e')) /\
      wroteHeader (w e') = true /\
      wStatus (w e') = StatusBadRequest /\
      compared e' = compared (pub c).
Proof.
  intros config h c ck Hb Hq Hf Hm Hfind Hsupplied Hne Hseen Hfresh.
  split; [rewrite Hsupplied; apply validateCSRFToken_same|].
  apply CSRFWithConfig_built in Hb. subst h.
  destruct (header_source_run config c ck Hq Hf Hm Hfind)
    as (e2 & Hw2 & _ & Hc2 & _ & Hrun).
  rewrite Hseen in Hrun. cbn [String.eqb] in Hrun.
  eexists. split; [exact Hrun|].
  destruct (rejected_response StatusBadRequest
              "missing csrf token in the header string" e2) as (H1 & H2);
    [by rewrite Hw2 | reflexivity | reflexivity |].
  split_and!; [exact H1 | exact H2 |].
  by rewrite rejected_compared.
Qed.

Lemma csrf_header_lookup_reads_the_response_header_witness :
  supplied "header" HeaderXCSRFToken (r (header_replay "abc")) = "abc" /\
  fst (fst (reference_token (with_defaults CSRFDefaultConfig) (header_replay "abc")))
    = "abc" /\
  exists e',
    (forall next,
       exec next default_csrf (newContext (header_replay "abc"))
       = Ok (Some "missing csrf token in the header string")
            (with_pub (newContext (header_replay "abc")) e')) /\
    wStatus (w e') = 400 /\ compared e' = [].
Proof.
  split; [reflexivity|].
  split;
    [by rewrite (reference_token_found (with_defaults CSRFDefaultConfig)
                   (header_replay "abc") (token_cookie "abc") eq_refl)|].
  destruct (csrf_header_lookup_reads_the_response_header
              CSRFDefaultConfig default_csrf (newContext (header_replay "abc"))
              (token_cookie "abc") eq_refl)
    as (_ & e' & H1 & _ & H2 & H3);
    [vm_compute; discriminate | vm_compute; discriminate | reflexivity
    | reflexivity | reflexivity | discriminate | reflexivity | reflexivity |].
  exists e'. by split_and!.
Defined.

(** C5. The same request in front of a terminal handler: by the design it
    is on an allowed path (an unsafe method whose token, sent in the header
    of the request, is the token of the cookie), yet the chain ends halted
    after the middleware, the terminal handler is never entered ([Next] is
    not called), no cookie is set on the response, the store is as it was
    and so is the Vary header. *)
Theorem csrf_matching_header_token_is_not_issued :
  forall (config : CSRFConfig) (h : prog) (e : world) (ck : Http.Cookie),
    CSRFWithConfig config = Built h ->
    lookup_source (with_defaults config) <> "query" ->
    lookup_source (with_defaults config) <> "form" ->
    is_safe_method (Method (r e)) = false ->
    List.find (fun ck => String.eqb (Name ck) (CookieName (with_defaults config)))
              (Cookies (r e)) = Some ck ->
    supplied (lookup_source (with_defaults config))
             (lookup_field (with_defaults config)) (r e) = Value ck ->
    Value ck <> EmptyString ->
    Header_Get (wHeader (w e)) (lookup_field (with_defaults config)) = EmptyString ->
    exists c,
      serve [mkHandlerFunc h true; terminal] once e = Ok None c /\
      invoked (trace c) = [0] /\
      intercept c = true /\
      SetCookies (w (pub c)) = SetCookies (w e) /\
      store (pub c) = store e /\
      Header_Get (wHeader (w (pub c))) HeaderVary
        = Header_Get (wHeader (w e)) HeaderVary.
Proof.
  intros config h e ck Hb Hq Hf Hm Hfind Hsupplied Hne Hseen.
  apply CSRFWithConfig_built in Hb. subst h.
  set (cfg := with_defaults config) in *.
  destruct (header_source_run config (newContext e) ck Hq Hf Hm Hfind)
    as (e2 & Hw2 & Hs2 & _ & _ & _).
  destruct (choose_creator_header (lookup_source cfg) (lookup_field cfg) e Hq Hf)
    as (e3 & Hspec & _ & Hw3 & Hs3 & _).
  rewrite Hseen in Hspec. cbn [String.eqb] in Hspec.
  eexists. split.
  - eapply (serve_first_handler_fails _ _ _ e (rejected StatusBadRequest _ e3)).
    intros next c Hc.
    rewrite csrf_handler_run, Hc, (reference_token_found cfg e ck Hfind), Hm, Hspec.
    reflexivity.
  - cbn [stopped_at_first trace intercept pub invoked].
    destruct (rejected_frame StatusBadRequest
                "missing csrf token in the header string" e3)
      as (H1 & H2 & _ & _ & H5).
    rewrite H1, H2, H5, Hw3, Hs3. by split_and!.
Qed.

Lemma csrf_matching_header_token_is_not_issued_witness :
  supplied "header" HeaderXCSRFToken (r (header_replay "abc")) = "abc" /\
  exists c,
    serve [mkHandlerFunc default_csrf true; terminal] once (header_replay "abc")
      = Ok None c /\
    invoked (trace c) = [0] /\ intercept c = true /\
    SetCookies (w (pub c)) = [] /\ store (pub c) = None /\
    Header_Get (wHeader (w (pub c))) HeaderVary = EmptyString.
Proof.
  split; [reflexivity|].
  destruct (csrf_matching_header_token_is_not_issued
              CSRFDefaultConfig default_csrf (header_replay "abc")
              (token_cookie "abc") eq_refl)
    as (c & H1 & H2 & H3 & H4 & H5 & H6);
    [vm_compute; discriminate | vm_compute; discriminate | reflexivity
    | reflexivity | reflexivity | discriminate | reflexivity |].
  exists c. by split_and!.
Defined.

(** C10. A request with an unsafe method whose header carries the empty
    string under the configured name (or no such field), served with a
    header source on a response not yet committed: the outcome follows the
    header map of the response writer. With nothing there the answer is 400;
    with a value there that is not the token of the cookie (set by a handler
    further up the chain, say) the tokens are compared and the answer is 403
    "invalid csrf token"; with the token of the cookie there the request
    passes: the cookie is set and [Next] is called. *)
Theorem csrf_empty_header_token_is_judged_by_the_response_header :
  forall (config : CSRFConfig) (h : prog) (c : context) (ck : Http.Cookie),
    CSRFWithConfig config = Built h ->
    lookup_source (with_defaults config) <> "query" ->
    lookup_source (with_defaults config) <> "form" ->
    is_safe_method (Method (r (pub c))) = false ->
    List.find (fun ck => String.eqb (Name ck) (CookieName (with_defaults config)))
              (Cookies (r (pub c))) = Some ck ->
    supplied (lookup_source (with_defaults config))
             (lookup_field (with_defaults config)) (r (pub c)) = EmptyString ->
    wroteHeader (w (pub c)) = false ->
    let seen := Header_Get (wHeader (w (pub c)))
                           (lookup_field (with_defaults config)) in
    (seen = EmptyString ->
     exists e',
       (forall next,
          exec next h c
          = Ok (Some "missing csrf token in the header string") (with_pub c e')) /\
       wStatus (w e') = StatusBadRequest /\
       compared e' = compared (pub c)) /\
    (seen <> EmptyString -> seen <> Value ck ->
     exists e',
       (forall next,
          exec next h c = Ok (Some "invalid csrf token") (with_pub c e')) /\
       wStatus (w e') = StatusForbidden /\
       compared e' = (compared (pub c) ++ [(Value ck, seen)])%list) /\
    (seen <> EmptyString -> seen = Value ck ->
     exists e',
       (forall next, exec next h c = then_return next (with_pub c e') None) /\
       wroteHeader (w e') = false /\
       SetCookies (w e')
       = (SetCookies (w (pub c))
            ++ [new_cookie (with_defaults config) (Value ck) (now (pub c))])%list /\
       fst (Get (Key (with_defaults config)) e') = Some (AString (Value ck))).
Proof.
  intros config h c ck Hb Hq Hf Hm Hfind Hsupplied Hfresh seen.
  apply CSRFWithConfig_built in Hb. subst h.
  destruct (header_source_run config c ck Hq Hf Hm Hfind)
    as (e2 & Hw2 & Hs2 & Hc2 & Hn2 & Hrun).
  fold seen in Hrun.
  split_and!.
  - intros Hseen. rewrite Hseen in Hrun. cbn [String.eqb] in Hrun.
    eexists. split; [exact Hrun|].
    split; [|by rewrite rejected_compared].
    apply rejected_response; [by rewrite Hw2 | reflexivity..].
  - intros Hseen Hdiff. apply String.eqb_neq in Hseen.
    rewrite Hseen, validateCSRFToken_false in Hrun by congruence.
    eexists. split; [exact Hrun|].
    split.
    + apply rejected_response; [|reflexivity..].
      cbn [noted w with_compared]. by rewrite Hw2.
    + rewrite rejected_compared. cbn [noted compared with_compared]. by rewrite Hc2.
  - intros Hseen Hsame. apply String.eqb_neq in Hseen.
    rewrite Hseen, Hsame, validateCSRFToken_same in Hrun.
    eexists. split; [exact Hrun|].
    destruct (issued_facts (with_defaults config) (Value ck)
                (noted (Value ck) (Value ck) e2))
      as (Hck & _ & Hget & _ & Hwr & _).
    split_and!.
    + rewrite Hwr. cbn [noted w with_compared]. by rewrite Hw2.
    + rewrite Hck. cbn [noted w now with_compared]. by rewrite Hw2, Hn2.
    + exact Hget.
Qed.

(** The context of the middleware once a handler further up has put [t]
    into the X-CSRF-Token header of the response. *)
Definition behind_exposing (t : string) : context :=
  newContext (snd (SetHeader HeaderXCSRFToken t empty_header_token)).

Lemma csrf_empty_header_token_is_judged_by_the_response_header_witness :
  supplied "header" HeaderXCSRFToken (r (pub (behind_exposing "zzz"))) = EmptyString /\
  (exists e',
     (forall next,
        exec next default_csrf (behind_exposing "zzz")
        = Ok (Some "invalid csrf token") (with_pub (behind_exposing "zzz") e')) /\
     wStatus (w e') = 403 /\ compared e' = [("abc", "zzz")]) /\
  (exists e',
     (forall next,
        exec next default_csrf (behind_exposing "abc")
        = then_return next (with_pub (behind_exposing "abc") e') None) /\
     fst (Get "csrf" e') = Some (AString "abc")).
Proof.
  split; [reflexivity|]. split.
  - destruct (proj1 (proj2 (csrf_empty_header_token_is_judged_by_the_response_header
                CSRFDefaultConfig default_csrf (behind_exposing "zzz")
                (token_cookie "abc") eq_refl ltac:(vm_compute; discriminate)
                ltac:(vm_compute; discriminate) eq_refl eq_refl eq_refl eq_refl)))
      as (e' & H1 & H2 & H3);
      [vm_compute; discriminate | vm_compute; discriminate |].
    exists e'. by split_and!.
  - destruct (proj2 (proj2 (csrf_empty_header_token_is_judged_by_the_response_header
                CSRFDefaultConfig default_csrf (behind_exposing "abc")
                (token_cookie "abc") eq_refl ltac:(vm_compute; discriminate)
                ltac:(vm_compute; discriminate) eq_refl eq_refl eq_refl eq_refl)))
      as (e' & H1 & _ & _ & H2);
      [vm_compute; discriminate | reflexivity |].
    exists e'. by split_and!.
Defined.

(** What a chain run comes to: the handlers entered, whether the chain was
    halted, and the status line of the response. *)
Definition summary (o : outcome error) : option (list Z * bool * bool * Z) :=
  match o with
  | Ok None c =>
      Some (invoked (trace c), intercept c, wroteHeader (w (pub c)), wStatus (w (pub c)))
  | _ => None
  end.

(** The same through the chain: behind a handler that exposes a token in the
    X-CSRF-Token header of the response, the request with the empty header
    token is refused with 403 when that token is not the one of the cookie,
    and reaches the terminal handler when it is. *)
Lemma exposed_token_decides_the_chain :
  summary (serve [exposing "zzz"; mkHandlerFunc default_csrf true; terminal] once
                 empty_header_token)
  = Some ([0; 1], true, true, 403) /\
  summary (serve [exposing "abc"; mkHandlerFunc default_csrf true; terminal] once
                 empty_header_token)
  = Some ([0; 1; 2], false, false, 0).
Proof. split; vm_compute; reflexivity. Qed.

End CsrfHeaderSource.


(** ** More of the CSRF middleware and of the logger *)

Module CsrfMore.
Import GoString Http Yee Middleware CsrfModel Samples.
Import GoFacts SubtleFacts WriterFacts CsrfFacts ChainFacts ChainMore.

(** Whether a byte occurs in a string. *)
Fixpoint has_byte (a : ascii) (s : string) : bool :=
  match s with
  | EmptyString => false
  | String x t => Ascii.eqb x a || has_byte a t
  end.

Lemma split_acc_first sep cur s : exists x, split_acc sep cur s !! 0%nat = Some x.
Proof.
  revert cur. induction s as [|a t IH]; intros cur; cbn [split_acc].
  - by exists cur.
  - destruct (Ascii.eqb a sep); [by exists cur | apply IH].
Qed.

Lemma split_acc_second sep cur s :
  split_acc sep cur s !! 1%nat = None <-> has_byte sep s = false.
Proof.
  revert cur. induction s as [|a t IH]; intros cur; cbn [split_acc has_byte].
  - by split.
  - destruct (Ascii.eqb a sep); cbn [orb].
    + destruct (split_acc_first sep EmptyString t) as [x Hx].
      change ((cur :: split_acc sep EmptyString t) !! 1%nat)
        with (split_acc sep EmptyString t !! 0%nat).
      rewrite Hx. by split.
    + apply IH.
Qed.

(** X11. Constructing the CSRF middleware panics exactly when the lookup
    string, after defaulting, holds no colon ([proc[1]] is out of range);
    with a colon it returns a handler, and so it does for every
    configuration that leaves the lookup string empty. *)
Theorem CSRFWithConfig_panics_iff_lookup_has_no_colon :
  forall config : CSRFConfig,
    (CSRFWithConfig config = SetupPanic
     <-> has_byte ":" (TokenLookup (with_defaults config)) = false) /\
    (has_byte ":" (TokenLookup (with_defaults config)) = true ->
     exists h, CSRFWithConfig config = Built h) /\
    (TokenLookup config = EmptyString -> exists h, CSRFWithConfig config = Built h).
Proof.
  intros config.
  assert (Hcolon : has_byte ":" (TokenLookup (with_defaults config)) = true ->
                   exists h, CSRFWithConfig config = Built h).
  { intros Hc. unfold CSRFWithConfig, Split.
    destruct (split_acc ":" EmptyString (TokenLookup (with_defaults config)) !! 1%nat)
      as [field|] eqn:E.
    - by eexists.
    - apply split_acc_second in E. congruence. }
  split_and!.
  - unfold CSRFWithConfig, Split.
    destruct (split_acc ":" EmptyString (TokenLookup (with_defaults config)) !! 1%nat)
      as [field|] eqn:E.
    + split; [discriminate|]. intros H.
      apply (split_acc_second ":" EmptyString) in H. congruence.
    + split; [intros _; by apply split_acc_second in E | reflexivity].
  - exact Hcolon.
  - intros Hempty. apply Hcolon. unfold with_defaults. cbn [TokenLookup].
    rewrite Hempty. reflexivity.
Qed.

Lemma CSRFWithConfig_panics_iff_lookup_has_no_colon_witness :
  CSRFWithConfig (mkCSRFConfig 0 "header" EmptyString EmptyString EmptyString
                               EmptyString 0 false false) = SetupPanic /\
  exists h, CSRFWithConfig CSRFDefaultConfig = Built h.
Proof.
  split.
  - apply (proj1 (CSRFWithConfig_panics_iff_lookup_has_no_colon _)). reflexivity.
  - apply (proj1 (proj2 (CSRFWithConfig_panics_iff_lookup_has_no_colon _))).
    reflexivity.
Defined.

(** X12. Defaulting a configuration: afterwards the token length and the
    max-age are not zero and the lookup string, the store key and the cookie
    name are not empty; the domain, the path and the two flags are left as
    given; and defaulting twice is defaulting once. *)
Theorem with_defaults_fills_every_gap :
  forall config : CSRFConfig,
    let d := with_defaults config in
    TokenLength d <> 0 /\ CookieMaxAge d <> 0 /\
    TokenLookup d <> EmptyString /\ Key d <> EmptyString /\
    CookieName d <> EmptyString /\
    CookieDomain d = CookieDomain config /\ CookiePath d = CookiePath config /\
    CookieSecure d = CookieSecure config /\
    CookieHTTPOnly d = CookieHTTPOnly config /\
    with_defaults d = d.
Proof.
  intros [tl lk key name dom pth age sec ho]. unfold with_defaults.
  cbn [TokenLength TokenLookup Key CookieName CookieDomain CookiePath CookieMaxAge
       CookieSecure CookieHTTPOnly].
  destruct (Z.eqb_spec tl 0) as [->|Htl], (Z.eqb_spec age 0) as [->|Hage],
    (String.eqb_spec lk EmptyString) as [->|Hlk],
    (String.eqb_spec key EmptyString) as [->|Hkey],
    (String.eqb_spec name EmptyString) as [->|Hname];
    cbn [CSRFDefaultConfig TokenLength TokenLookup Key CookieName CookieMaxAge];
    split_and!; try reflexivity; try assumption; try discriminate;
    repeat match goal with
           | H : ?x <> 0 |- context [?x =? 0] =>
               rewrite (proj2 (Z.eqb_neq x 0) H)
           | H : ?x <> EmptyString |- context [String.eqb ?x EmptyString] =>
               rewrite (proj2 (String.eqb_neq x EmptyString) H)
           end; reflexivity.
Qed.

(** *** The middleware in front of a terminal handler *)

(** X13. The CSRF middleware with the source "query" or "form" in front of
    a terminal handler, on a request with an unsafe method that carries the
    cookie, the query not yet cached: when the value the request carries at
    the configured parameter or field equals the cookie's value (and is not
    empty), the terminal handler is entered and nothing is written by the
    middleware; when it differs, the terminal handler is never entered, the
    chain ends halted and the response has status 403; when it is empty, the
    same with status 400. *)
Theorem csrf_guards_the_terminal_handler :
  forall (config : CSRFConfig) (h : prog) (e : world) (ck : Http.Cookie),
    CSRFWithConfig config = Built h ->
    lookup_source (with_defaults config) = "query" \/
    lookup_source (with_defaults config) = "form" ->
    queryList e = None ->
    is_safe_method (Method (r e)) = false ->
    List.find (fun ck => String.eqb (Name ck) (CookieName (with_defaults config)))
              (Cookies (r e)) = Some ck ->
    wroteHeader (w e) = false ->
    let clientToken := supplied (lookup_source (with_defaults config))
                                (lookup_field (with_defaults config)) (r e) in
    let out := serve [mkHandlerFunc h true; terminal] once e in
    (clientToken <> EmptyString -> clientToken = Value ck ->
     exists c, out = Ok None c /\ invoked (trace c) = [0; 1] /\
               intercept c = false /\ wroteHeader (w (pub c)) = false /\
               fst (Get (Key (with_defaults config)) (pub c))
                 = Some (AString (Value ck))) /\
    (clientToken <> EmptyString -> clientToken <> Value ck ->
     exists c, out = Ok None c /\ invoked (trace c) = [0] /\
               intercept c = true /\ wStatus (w (pub c)) = 403) /\
    (clientToken = EmptyString ->
     exists c, out = Ok None c /\ invoked (trace c) = [0] /\
               intercept c = true /\ wStatus (w (pub c)) = 400).
Proof.
  intros config h e ck Hb Hsrc Hcache Hm Hfind Hfresh clientToken out.
  apply CSRFWithConfig_built in Hb. subst h.
  set (cfg := with_defaults config) in *.
  destruct (choose_creator_spec (lookup_source cfg) (lookup_field cfg) e)
    as (e2 & Hspec & _ & Hw2 & _ & _ & _ & _).
  rewrite (extractor_reads_supplied _ _ e Hsrc Hcache) in Hspec.
  fold clientToken in Hspec.
  pose proof (reference_token_found cfg e ck Hfind) as Href.
  split_and!.
  - intros Hne Heq. apply String.eqb_neq in Hne. rewrite Hne in Hspec.
    eexists. split.
    + apply (serve_wrapper_then_terminal _ _ e
               (issued cfg (Value ck) (noted (Value ck) clientToken e2)) None).
      intros next c Hc. rewrite csrf_handler_run, Hc, Href, Hm, Hspec.
      cbn [fst snd]. rewrite Heq, validateCSRFToken_same. reflexivity.
    + cbn [wrapped_terminal trace intercept pub invoked].
      destruct (issued_facts cfg (Value ck) (noted (Value ck) clientToken e2))
        as (_ & _ & Hget & _ & Hwr & _).
      split_and!; try reflexivity.
      * rewrite Hwr. cbn [noted w with_compared]. by rewrite Hw2.
      * exact Hget.
  - intros Hne Hdiff. apply String.eqb_neq in Hne. rewrite Hne in Hspec.
    eexists. split.
    + apply (serve_first_handler_fails _ _ _ e
               (rejected StatusForbidden "invalid csrf token"
                         (noted (Value ck) clientToken e2))
               "invalid csrf token").
      intros next c Hc. rewrite csrf_handler_run, Hc, Href, Hm, Hspec.
      cbn [fst snd]. rewrite validateCSRFToken_false by congruence. reflexivity.
    + cbn [stopped_at_first trace intercept pub invoked].
      split_and!; try reflexivity.
      apply rejected_response; [|reflexivity..].
      cbn [noted w with_compared]. by rewrite Hw2.
  - intros Hempty. rewrite Hempty in Hspec. cbn [String.eqb] in Hspec.
    eexists. split.
    + eapply (serve_first_handler_fails _ _ _ e (rejected StatusBadRequest _ e2)).
      intros next c Hc. rewrite csrf_handler_run, Hc, Href, Hm, Hspec.
      cbn [fst snd]. reflexivity.
    + cbn [stopped_at_first trace intercept pub invoked].
      split_and!; try reflexivity.
      apply rejected_response; [|reflexivity..].
      by rewrite Hw2.
Qed.

(** Two POST requests with the cookie [_csrf=abc]: one with the query
    [csrf=abc], for the lookup string "query:csrf", one with the form field
    [csrf=xyz], for the lookup string "form:csrf". *)
Definition query_config : CSRFConfig :=
  mkCSRFConfig 0 "query:csrf" EmptyString EmptyString EmptyString EmptyString
               0 false false.
Definition form_config : CSRFConfig :=
  mkCSRFConfig 0 "form:csrf" EmptyString EmptyString EmptyString EmptyString
               0 false false.
Definition replay_world : world :=
  mkWorld (mkRequest MethodPost "/" "csrf=abc" {[ "csrf" := ["abc"] ]} ∅
                     [token_cookie "abc"] ∅ "HTTP/1.1" "example.org" "192.0.2.1"
                     false)
          blank_writer None ∅ None 0 zeros 0 [] [].
Definition forged_form_world : world :=
  mkWorld (mkRequest MethodPost "/" EmptyString ∅ ∅
                     [token_cookie "abc"] {[ "csrf" := ["xyz"] ]} "HTTP/1.1"
                     "example.org" "192.0.2.1" false)
          blank_writer None ∅ None 0 zeros 0 [] [].
Definition query_csrf : prog :=
  csrf_handler (with_defaults query_config) (choose_creator "query" "csrf").
Definition form_csrf : prog :=
  csrf_handler (with_defaults form_config) (choose_creator "form" "csrf").

Lemma csrf_guards_the_terminal_handler_witness :
  (exists c,
     serve [mkHandlerFunc query_csrf true; terminal] once replay_world = Ok None c /\
     invoked (trace c) = [0; 1] /\ intercept c = false /\
     wroteHeader (w (pub c)) = false /\
     fst (Get "csrf" (pub c)) = Some (AString "abc")) /\
  (exists c,
     serve [mkHandlerFunc form_csrf true; terminal] once forged_form_world = Ok None c /\
     invoked (trace c) = [0] /\ intercept c = true /\ wStatus (w (pub c)) = 403).
Proof.
  split.
  - refine (proj1 (csrf_guards_the_terminal_handler query_config query_csrf replay_world
                     (token_cookie "abc") eq_refl (or_introl eq_refl) eq_refl eq_refl
                     eq_refl eq_refl) _ eq_refl).
    vm_compute. discriminate.
  - refine (proj1 (proj2 (csrf_guards_the_terminal_handler form_config form_csrf
                            forged_form_world (token_cookie "abc") eq_refl
                            (or_intror eq_refl) eq_refl eq_refl eq_refl eq_refl)) _ _);
      vm_compute; discriminate.
Defined.

(** X14. The two failure branches issue nothing. With the source "query" or
    "form" and the query not yet cached, on a request with an unsafe method
    whose value at the configured parameter or field is not the reference
    token: the handler returns an error without calling [Next], and no
    cookie has been added, the store and the Vary header are as before; only
    the response has been committed. *)
Theorem csrf_failure_issues_nothing :
  forall (config : CSRFConfig) (h : prog) (c : context)
         (token : string) (err : error) (e1 : world),
    CSRFWithConfig config = Built h ->
    lookup_source (with_defaults config) = "query" \/
    lookup_source (with_defaults config) = "form" ->
    queryList (pub c) = None ->
    is_safe_method (Method (r (pub c))) = false ->
    reference_token (with_defaults config) (pub c) = (token, err, e1) ->
    supplied (lookup_source (with_defaults config))
             (lookup_field (with_defaults config)) (r (pub c)) <> token ->
    exists msg e',
      (forall next, exec next h c = Ok (Some msg) (with_pub c e')) /\
      SetCookies (w e') = SetCookies (w (pub c)) /\
      store e' = store (pub c) /\
      Header_Get (wHeader (w e')) HeaderVary
        = Header_Get (wHeader (w (pub c))) HeaderVary /\
      wroteHeader (w e') = true.
Proof.
  intros config h c token err e1 Hb Hsrc Hcache Hm Href Hne.
  apply CSRFWithConfig_built in Hb. subst h.
  set (cfg := with_defaults config) in *.
  destruct (reference_token_world _ _ _ _ _ Href) as (Hr & Hw & Hs & _ & Hq & _).
  destruct (choose_creator_spec (lookup_source cfg) (lookup_field cfg) e1)
    as (e2 & Hspec & _ & Hw2 & Hs2 & _ & _ & _).
  rewrite (extractor_reads_supplied _ _ e1 Hsrc) in Hspec by congruence.
  rewrite Hr in Hspec.
  assert (Hframe : forall code msg e0, valid_code code = true ->
            w e0 = w (pub c) -> store e0 = store (pub c) ->
            SetCookies (w (rejected code msg e0)) = SetCookies (w (pub c)) /\
            store (rejected code msg e0) = store (pub c) /\
            Header_Get (wHeader (w (rejected code msg e0))) HeaderVary
              = Header_Get (wHeader (w (pub c))) HeaderVary /\
            wroteHeader (w (rejected code msg e0)) = true).
  { intros code msg e0 Hv Hw0 Hs0.
    destruct (rejected_frame code msg e0) as (H1 & H2 & _ & _ & H5).
    rewrite H1, H2, H5, Hw0, Hs0, (rejected_committed code msg e0 Hv).
    by split_and!. }
  assert (Hrun : forall next, _) by
    (intros next; exact (csrf_handler_run cfg
       (choose_creator (lookup_source cfg) (lookup_field cfg)) next c)).
  setoid_rewrite Href in Hrun. rewrite Hr, Hm, Hspec in Hrun.
  destruct (String.eqb_spec (supplied (lookup_source cfg) (lookup_field cfg) (r (pub c)))
                            EmptyString) as [E|E]; cbn [fst snd] in Hrun.
  - eexists _, _. split; [exact Hrun|].
    apply Hframe; [reflexivity | congruence..].
  - rewrite validateCSRFToken_false in Hrun by congruence.
    eexists _, _. split; [exact Hrun|].
    apply Hframe; [reflexivity | cbn [noted w store with_compared]; congruence..].
Qed.

(** A POST request with the cookie [_csrf=abc] and no query at all. *)
Definition bare_post_context : context :=
  with_handlers (newContext (world_of (request MethodPost ∅ [token_cookie "abc"]) zeros))
                [mkHandlerFunc query_csrf true; terminal].

Lemma csrf_failure_issues_nothing_witness :
  exists msg e',
    exec Next query_csrf bare_post_context
      = Ok (Some msg) (with_pub bare_post_context e') /\
    SetCookies (w e') = [] /\ store e' = None /\ wroteHeader (w e') = true.
Proof.
  destruct (csrf_failure_issues_nothing query_config query_csrf bare_post_context
              "abc" None (pub bare_post_context) eq_refl (or_introl eq_refl)
              eq_refl eq_refl eq_refl)
    as (msg & e' & H1 & H2 & H3 & _ & H4).
  - vm_compute. discriminate.
  - exists msg, e'. split_and!; [apply H1 | exact H2 | exact H3 | exact H4].
Defined.

(** X15. A request with a safe method in front of a terminal handler: the
    terminal handler is entered and the token is issued in both cases, but
    when the request carried no cookie the handler's bare [return] gives
    back the error of the cookie lookup (the named result [err]), so the
    chain ends with [intercept] set; with the cookie it returns nil and
    [intercept] stays unset. *)
Theorem csrf_first_visit_ends_halted :
  forall (config : CSRFConfig) (h : prog) (e : world),
    CSRFWithConfig config = Built h ->
    is_safe_method (Method (r e)) = true ->
    let find := List.find (fun ck => String.eqb (Name ck)
                                       (CookieName (with_defaults config)))
                          (Cookies (r e)) in
    let out := serve [mkHandlerFunc h true; terminal] once e in
    (find = None ->
     exists c, out = Ok None c /\ invoked (trace c) = [0; 1] /\
               intercept c = true /\
               trace c = [Invoke 0; Invoke 1; Returned 1 None; Returned 0 ErrNoCookie] /\
               fst (Get (Key (with_defaults config)) (pub c))
                 = Some (AString (fst (fresh_token e)))) /\
    (forall ck, find = Some ck ->
     exists c, out = Ok None c /\ invoked (trace c) = [0; 1] /\
               intercept c = false /\
               fst (Get (Key (with_defaults config)) (pub c))
                 = Some (AString (Value ck))).
Proof.
  intros config h e Hb Hm find out.
  apply CSRFWithConfig_built in Hb. subst h.
  set (cfg := with_defaults config) in *. split.
  - intros Hfind. pose proof (reference_token_fresh cfg e Hfind) as Href.
    eexists. split.
    + apply (serve_wrapper_then_terminal _ _ e
               (issued cfg (fst (fresh_token e))
                       (with_entropy_pos e (entropy_pos e + 16))) ErrNoCookie).
      intros next c Hc. rewrite csrf_handler_run, Hc, Href.
      change (r (with_entropy_pos e (entropy_pos e + 16))) with (r e).
      rewrite Hm. reflexivity.
    + cbn [wrapped_terminal trace intercept pub invoked ErrNoCookie].
      split_and!; try reflexivity.
      apply issued_facts.
  - intros ck Hfind. pose proof (reference_token_found cfg e ck Hfind) as Href.
    eexists. split.
    + apply (serve_wrapper_then_terminal _ _ e (issued cfg (Value ck) e) None).
      intros next c Hc. rewrite csrf_handler_run, Hc, Href, Hm. reflexivity.
    + cbn [wrapped_terminal trace intercept pub invoked].
      split_and!; try reflexivity.
      apply issued_facts.
Qed.

Lemma csrf_first_visit_ends_halted_witness :
  exists c,
    serve [mkHandlerFunc default_csrf true; terminal] once get_world = Ok None c /\
    invoked (trace c) = [0; 1] /\ intercept c = true.
Proof.
  destruct (proj1 (csrf_first_visit_ends_halted CSRFDefaultConfig default_csrf get_world
                     eq_refl eq_refl) eq_refl) as (c & H1 & H2 & H3 & _).
  exists c. by split_and!.
Defined.

(** X16. A source that is neither "query" nor "form" (a misspelt one, say)
    is not refused: the construction returns the handler that extracts the
    token with [GetHeader], from the field named after the first colon; what
    follows a second colon is dropped. *)
Theorem CSRFWithConfig_falls_back_to_the_header :
  forall (config : CSRFConfig) (source field : string) (rest : list string),
    Split (TokenLookup (with_defaults config)) ":" = source :: field :: rest ->
    source <> "query" -> source <> "form" ->
    CSRFWithConfig config
    = Built (csrf_handler (with_defaults config) (csrfTokenFromHeader field)).
Proof.
  intros config source field rest Hsplit Hq Hf.
  unfold CSRFWithConfig. rewrite Hsplit.
  change ((source :: field :: rest) !! 1%nat) with (Some field).
  change ((source :: field :: rest) !! 0%nat) with (Some source).
  cbv iota. unfold default, choose_creator, id.
  apply String.eqb_neq in Hq, Hf. by rewrite Hq, Hf.
Qed.

Lemma CSRFWithConfig_falls_back_to_the_header_witness :
  CSRFWithConfig (mkCSRFConfig 0 "Query:csrf:x" EmptyString EmptyString EmptyString
                               EmptyString 0 false false)
  = Built (csrf_handler
             (with_defaults (mkCSRFConfig 0 "Query:csrf:x" EmptyString EmptyString
                                          EmptyString EmptyString 0 false false))
             (csrfTokenFromHeader "csrf")).
Proof.
  apply (CSRFWithConfig_falls_back_to_the_header _ "Query" "csrf" ["x"]);
    [reflexivity | discriminate | discriminate].
Defined.

End CsrfMore.

Module LoggerMore.
Import Http Yee FastTemplate Middleware Logger Samples.
Import ChainFacts ChainMore LoggerFacts WriterFacts.

(** X17. The two variants of the logger give a line the same severity
    exactly when the status is 400 or more (both Warn); below 400 the one
    says Info where the other says Trace (at 200) or Warn. *)
Theorem logger_variants_agree_from_400_on :
  forall status : Z,
    (V1.severity_of status = V2.severity_of status <-> 400 <= status) /\
    (status < 400 -> V1.severity_of status = Info /\
                     V2.severity_of status <> Info).
Proof.
  intros status. unfold V1.severity_of, V2.severity_of.
  destruct (Z.ltb_spec status 400), (Z.eqb_spec status 200); split;
    try (split; (discriminate || lia || reflexivity));
    intros; (lia || (split; [reflexivity | discriminate])).
Qed.

Lemma logger_variants_agree_from_400_on_witness :
  V1.severity_of 302 = Info /\ V2.severity_of 302 <> Info.
Proof.
  apply (proj2 (logger_variants_agree_from_400_on 302)). lia.
Defined.

(** X18. A configuration with an empty format gets the default format, which
    parses: in the variant with the threshold the construction returns a
    handler for every level and flag, and in general it is fatal exactly
    when the defaulted format does not parse. *)
Theorem LoggerWithConfig_builds_on_the_default_format :
  (forall (level : Z) (isLogger : bool),
     exists h, V1.LoggerWithConfig (mkLoggerConfig EmptyString level isLogger)
               = Built h) /\
  (forall config : LoggerConfig,
     (exists msg, V1.LoggerWithConfig config = Fatal msg)
     <-> NewTemplate (Format (V1.with_defaults config)) = None).
Proof.
  split.
  - intros level isLogger. unfold V1.LoggerWithConfig.
    change (Format (V1.with_defaults (mkLoggerConfig EmptyString level isLogger)))
      with (Format V1.DefaultLoggerConfig).
    destruct (NewTemplate (Format V1.DefaultLoggerConfig)) as [t|] eqn:E;
      [by eexists|].
    vm_compute in E. discriminate.
  - intros config. unfold V1.LoggerWithConfig.
    destruct (NewTemplate (Format (V1.with_defaults config))) as [t|].
    + split; [intros [msg H]; discriminate | discriminate].
    + split; [reflexivity | by eexists].
Qed.

(** The context after a wrapping handler that acts after its call of [Next]
    (by [g]) around a handler that answers by itself (by [f], returning
    [err]). *)
Definition wrapped (hs : list HandlerFunc) (e e' : world) (err : error) : context :=
  mkContext e' (URLPath (r e)) (Method (r e)) hs 3
            (match err with Some _ => true | None => false end)
            [Invoke 0; Invoke 1; Returned 1 err; Returned 0 None].

Lemma serve_wrapper_around p1 p2 mw1 mw2 (g f : world -> world) err e :
  (forall next c,
     exec next p1 c = after_next next c (fun c' => Ok None (with_pub c' (g (pub c'))))) ->
  (forall next c, exec next p2 c = Ok err (with_pub c (f (pub c)))) ->
  serve [mkHandlerFunc p1 mw1; mkHandlerFunc p2 mw2] once e
  = Ok None (wrapped [mkHandlerFunc p1 mw1; mkHandlerFunc p2 mw2] e (g (f e)) err).
Proof.
  intros H1 H2. unfold serve, once. cbn [exec]. unfold Next, Next_fuel.
  set (hs := [mkHandlerFunc p1 mw1; mkHandlerFunc p2 mw2]).
  set (c0 := with_handlers (newContext e) hs).
  change (handlers c0) with hs. change (List.length hs) with 2%nat.
  change (Z.of_nat 2) with 2.
  cbn [loop]. change (index (incr c0)) with 0.
  change (0 <? 2) with true. change (intercept (incr c0)) with false. cbv iota.
  change (handler_at (incr c0)) with (Some (mkHandlerFunc p1 mw1)). cbv iota.
  cbn [Func]. rewrite H1. unfold after_next.
  set (c1 := record (Invoke 0) (incr c0)).
  change (handlers c1) with hs. change (List.length hs) with 2%nat.
  change (Z.of_nat 2) with 2.
  cbn [loop]. change (index (incr c1)) with 1.
  change (1 <? 2) with true. change (intercept (incr c1)) with false. cbv iota.
  change (handler_at (incr c1)) with (Some (mkHandlerFunc p2 mw2)). cbv iota.
  cbn [Func]. rewrite H2.
  destruct err; reflexivity.
Qed.

(** X19. The logger around a handler that answers through [MiddError] with
    a status from 200 to 999, on a response not committed before: the chain
    ends halted, and still exactly one line has been handed to the backend,
    at the severity of the status the handler committed (Warn from 400 on,
    Info below, in the variant with the threshold). *)
Theorem logger_logs_a_failed_request :
  forall (t : Template) (code : Z) (msg : string) (e : world),
    wroteHeader (w e) = false ->
    200 <= code <= 999 ->
    exists c line,
      serve [mkHandlerFunc (V1.logger_handler t) true;
             mkHandlerFunc (report code msg) false] once e = Ok None c /\
      invoked (trace c) = [0; 1] /\
      intercept c = true /\
      wroteHeader (w (pub c)) = true /\
      wStatus (w (pub c)) = code /\
      sink (pub c)
        = (sink e ++ [(if code <? 400 then Info else Warn, line)])%list.
Proof.
  intros t code msg e Hfresh Hcode.
  assert (Hv : valid_code code = true) by (unfold valid_code; lia).
  assert (Hi : informational code = false) by (unfold informational; lia).
  set (f := fun e0 : world => snd (String_ code msg e0)).
  set (g := fun e0 : world =>
              snd (emit (V1.severity_of (Response_Status e0))
                        (fst (V1.render t e0)) e0)).
  destruct (Blob_writer code MIMETextPlainCharsetUTF8 msg e Hfresh Hv Hi)
    as (Hwr & Hst & _).
  destruct (Blob_frame code MIMETextPlainCharsetUTF8 msg e)
    as (_ & _ & _ & _ & Hsink & _).
  fold (String_ code msg e) in Hwr, Hst, Hsink. fold (f e) in Hwr, Hst, Hsink.
  eexists _, (fst (V1.render t (f e))). split.
  - apply (serve_wrapper_around _ _ _ _ g f (Some msg) e).
    + intros next c. apply V1_handler_run.
    + intros next c. unfold report, f. cbn [exec].
      by rewrite MiddError_valid.
  - cbn [wrapped trace intercept pub invoked].
    split_and!; try reflexivity.
    + unfold g. cbn [emit snd w with_sink]. exact Hwr.
    + unfold g. cbn [emit snd w with_sink]. exact Hst.
    + unfold g, V1.severity_of, Response_Status. cbn [emit snd sink with_sink].
      by rewrite Hst, Hsink.
Qed.

Lemma logger_logs_a_failed_request_witness :
  exists c line,
    serve [mkHandlerFunc (V1.logger_handler [Text "hit"]) true;
           mkHandlerFunc (report 404 "gone") false] once get_world = Ok None c /\
    intercept c = true /\ wStatus (w (pub c)) = 404 /\ sink (pub c) = [(Warn, line)].
Proof.
  destruct (logger_logs_a_failed_request [Text "hit"] 404 "gone" get_world eq_refl
              ltac:(lia))
    as (c & line & H1 & _ & H2 & _ & H3 & H4).
  exists c, line. by split_and!.
Defined.

(** X20. The two variants render every field alike except [error]: for a
    tag other than "error" both give the same text, and for "error" the
    variant with the threshold gives the empty string, as it does for every
    name it does not know. *)
Theorem logger_variants_render_alike_but_for_error :
  forall (e : world) (tag : string),
    (tag <> "error" -> V1.tag_value e tag = V2.tag_value e tag) /\
    V1.tag_value e "error" = EmptyString /\
    V2.tag_value e "error"
      = (if Response_Status e =? 200 then EmptyString else Response_Body e) /\
    (~ In tag ["url"; "method"; "status"; "remote_ip"; "host"; "protocol";
               "bytes_in"; "bytes_out"] ->
     V1.tag_value e tag = EmptyString).
Proof.
  intros e tag. split_and!.
  - intros Hne. apply String.eqb_neq in Hne.
    unfold V1.tag_value, V2.tag_value. rewrite Hne.
    repeat match goal with
           | |- context [String.eqb tag ?x] => destruct (String.eqb tag x)
           end; reflexivity.
  - reflexivity.
  - unfold V2.tag_value. cbn [String.eqb Ascii.eqb Bool.eqb andb].
    by destruct (Response_Status e =? 200).
  - intros Hnot. unfold V1.tag_value.
    repeat match goal with
           | |- context [String.eqb tag ?x] =>
               destruct (String.eqb_spec tag x) as [->|_];
                 [exfalso; apply Hnot; cbn; tauto|]
           end.
    reflexivity.
Qed.

Lemma logger_variants_render_alike_but_for_error_witness :
  V1.tag_value get_world "url" = V2.tag_value get_world "url" /\
  V1.tag_value get_world "user_agent" = EmptyString.
Proof.
  split.
  - apply (proj1 (logger_variants_render_alike_but_for_error get_world "url")).
    discriminate.
  - apply (proj2 (proj2 (proj2
             (logger_variants_render_alike_but_for_error get_world "user_agent")))).
    cbn. intros H. repeat (destruct H as [H|H]; [discriminate|]). exact H.
Defined.

End LoggerMore.
